(** * Bystronic OPC UA client: record decoder, client session and fleet monitor

    A shallow embedding of [bystronic_opc/client.py], [bystronic_opc/monitor.py],
    [bystronic_opc/data_types.py] and [bystronic_opc/exceptions.py].

    Conventions.
    - [bytes] is [list byte]; Python integers are [Z].
    - A [float] is carried as its IEEE-754 binary64 bit pattern (a [Z] below
      2^64): the code only moves floats around, it never computes with them.
    - A decoded [str] is the list of its Unicode code points; text that the
      code writes itself (URLs, node identifiers, messages) is a [string].
    - A Python call that may raise returns an [outcome].
    - The OPC UA session ([asyncua.Client]) is outside the package: what it
      answers during one call, or one monitor cycle, is given by a [world]. *)

From Stdlib Require Import ZArith Lia List Ascii String Strings.Byte Bool.
From stdpp Require Import base option list strings gmap fin_maps.

Local Open Scope Z_scope.

(* ===================================================================== *)
(** ** Exceptions ([exceptions.py]) and results of calls                  *)
(* ===================================================================== *)

(** Exceptions that come from outside the package, by what they report. *)
Inductive cause : Type :=
  | struct_error (need : nat)         (* struct.unpack: buffer is not [need] bytes long *)
  | UnicodeDecodeError (start : nat)  (* bytes.decode: offset of the first bad sequence *)
  | ValueError (msg : string)         (* uuid.UUID: badly formed hexadecimal string *)
  | SessionError (msg : string).      (* anything raised by the asyncua session *)

(** The text [str(e)] of an exception. An f-string [f"{prefix}{e}"] keeps
    the text of [e] behind its prefix. *)
Inductive message : Type :=
  | Text (s : string)
  | Caused (prefix : string) (by_ : message)
  | OfCause (c : cause).

(** [BystronicOPCError] and its subclasses, next to foreign exceptions. *)
Inductive exn : Type :=
  | Foreign (c : cause)
  | ConnectionError (m : message)
  | DataError (m : message)
  | MethodCallError (m : message)
  | ConfigurationError (m : message).

Definition str (e : exn) : message :=
  match e with
  | Foreign c => OfCause c
  | ConnectionError m | DataError m | MethodCallError m
  | ConfigurationError m => m
  end.

Inductive outcome (A : Type) : Type :=
  | Return (a : A)
  | Raise (e : exn).
Arguments Return {A} a.
Arguments Raise {A} e.

#[global] Instance outcome_ret : MRet outcome := fun A a => Return a.
#[global] Instance outcome_bind : MBind outcome := fun A B k m =>
  match m with
  | Return a => k a
  | Raise e => Raise e
  end.
#[global] Instance outcome_fmap : FMap outcome := fun A B f m =>
  match m with
  | Return a => Return (f a)
  | Raise e => Raise e
  end.

(** [try: body except Exception as e: raise wrap(e)]. *)
Definition reraise {A} (wrap : exn -> exn) (m : outcome A) : outcome A :=
  match m with
  | Return a => Return a
  | Raise e => Raise (wrap e)
  end.

Definition raises {A} (m : outcome A) : Prop := exists e, m = Raise e.

(* ===================================================================== *)
(** ** Bytes, [struct.unpack], hexadecimal text                           *)
(* ===================================================================== *)

Definition byte_val (b : byte) : Z := Z.of_N (Byte.to_N b).

(** Little-endian and big-endian unsigned readings of a byte string. *)
Fixpoint le_uint (bs : list byte) : Z :=
  match bs with
  | [] => 0
  | b :: r => byte_val b + 256 * le_uint r
  end.

Definition be_uint (bs : list byte) : Z :=
  fold_left (fun acc b => 256 * acc + byte_val b) bs 0.

(** [body[lo:hi]] for indices that are not negative: Python clips a slice
    to the sequence, it never raises. *)
Definition slice {A} (l : list A) (lo hi : Z) : list A :=
  take (Z.to_nat (hi - lo)) (drop (Z.to_nat lo) l).

(** [struct.unpack(fmt, buf)] raises [struct.error] unless [buf] has exactly
    [calcsize(fmt)] bytes; with ["<"] there is no padding. *)
Definition struct_size (size : nat) (buf : list byte) : outcome unit :=
  if decide (length buf = size) then Return tt
  else Raise (Foreign (struct_error size)).

Definition float64 : Type := Z.

(** Two's complement reading of a 32-bit pattern. *)
Definition to_int32 (u : Z) : Z := if u <? 2 ^ 31 then u else u - 2 ^ 32.

(* "<I" *)
Definition unpack_I (buf : list byte) : outcome Z :=
  _ ← struct_size 4 buf; Return (le_uint buf).

(* "<i" *)
Definition unpack_i (buf : list byte) : outcome Z :=
  _ ← struct_size 4 buf; Return (to_int32 (le_uint buf)).

(* "<ii" *)
Definition unpack_ii (buf : list byte) : outcome (Z * Z) :=
  _ ← struct_size 8 buf;
  Return (to_int32 (le_uint (take 4 buf)), to_int32 (le_uint (drop 4 buf))).

(* "<d" *)
Definition unpack_d (buf : list byte) : outcome float64 :=
  _ ← struct_size 8 buf; Return (le_uint buf).

(* "<ddd" *)
Definition unpack_ddd (buf : list byte) : outcome (float64 * float64 * float64) :=
  _ ← struct_size 24 buf;
  Return (le_uint (take 8 buf), le_uint (take 8 (drop 8 buf)), le_uint (drop 16 buf)).

(* "<IHH8s" *)
Definition unpack_IHH8s (buf : list byte) : outcome (Z * Z * Z * list byte) :=
  _ ← struct_size 16 buf;
  Return (le_uint (take 4 buf), le_uint (take 2 (drop 4 buf)),
          le_uint (take 2 (drop 6 buf)), drop 8 buf).

(** The lowercase hexadecimal digit of a value below 16: "0" is character
    48, "a" is character 97. *)
Definition hexdigit (n : Z) : ascii :=
  ascii_of_N (Z.to_N (if n <? 10 then 48 + n else 87 + n)).

(** [bytes.hex()]: two lowercase digits per byte. *)
Fixpoint hex (bs : list byte) : string :=
  match bs with
  | [] => EmptyString
  | b :: r =>
      String (hexdigit (byte_val b / 16))
        (String (hexdigit (byte_val b mod 16)) (hex r))
  end.

(** The digits of [format(x, "x")] for [0 <= x], most significant first. *)
Fixpoint to_hex (fuel : nat) (x : Z) : string :=
  match fuel with
  | O => EmptyString
  | S f =>
      if x <? 16 then String (hexdigit x) EmptyString
      else to_hex f (x / 16) +:+ String (hexdigit (x mod 16)) EmptyString
  end.

Fixpoint zeros (n : nat) : string :=
  match n with
  | O => EmptyString
  | S k => String "0" (zeros k)
  end.

(** [f"{x:0{width}x}"] for [0 <= x]: padded with zeros on the left up to
    [width], never truncated. *)
Definition format_x (width : nat) (x : Z) : string :=
  let digits := to_hex (S (Z.to_nat (Z.log2 x))) x in
  zeros (width - String.length digits) +:+ digits.

(** [s[:n]] and [s[n:]] on text. *)
Fixpoint str_take (n : nat) (s : string) : string :=
  match n, s with
  | S k, String c r => String c (str_take k r)
  | _, _ => EmptyString
  end.

Fixpoint str_drop (n : nat) (s : string) : string :=
  match n, s with
  | S k, String _ r => str_drop k r
  | _, _ => s
  end.

(** [s.split(sep)] for a one-character separator. *)
Fixpoint split (sep : ascii) (s : string) : list string :=
  match s with
  | EmptyString => [EmptyString]
  | String c r =>
      if Ascii.eqb c sep then EmptyString :: split sep r
      else match split sep r with
           | seg :: segs => String c seg :: segs
           | [] => [String c EmptyString]
           end
  end.

(** The f-string that both decoders build from the four unpacked parts. *)
Definition guid_str (parts : Z * Z * Z * list byte) : string :=
  let '(p0, p1, p2, p3) := parts in
  format_x 8 p0 +:+ "-" +:+ format_x 4 p1 +:+ "-" +:+ format_x 4 p2 +:+ "-"
    +:+ str_take 4 (hex p3) +:+ "-" +:+ str_drop 4 (hex p3).

(* ===================================================================== *)
(** ** [uuid.UUID(hex)] and [bytes.decode("utf-8")]                       *)
(* ===================================================================== *)

Definition between (lo c hi : Z) : bool := (lo <=? c) && (c <=? hi).

(** The value of a hexadecimal digit, of either case. *)
Definition hexval (c : ascii) : option Z :=
  let code := Z.of_N (N_of_ascii c) in
  if between 48 code 57 then Some (code - 48)
  else if between 97 code 102 then Some (code - 87)
  else if between 65 code 70 then Some (code - 55)
  else None.

(** [int(s, 16)] on a run of hexadecimal digits, continuing from [acc]. *)
Fixpoint int16 (acc : Z) (s : string) : option Z :=
  match s with
  | EmptyString => Some acc
  | String c r =>
      match hexval c with
      | Some d => int16 (16 * acc + d) r
      | None => None
      end
  end.

(** [s.replace("-", "")]. *)
Fixpoint drop_hyphens (s : string) : string :=
  match s with
  | EmptyString => EmptyString
  | String c r =>
      if Ascii.eqb c "-" then drop_hyphens r else String c (drop_hyphens r)
  end.

(** A [UUID] is its 128-bit integer, which is what [UUID.__eq__] compares.
    [UUID(hex)] drops the hyphens, wants 32 characters and reads them in
    base 16. (It first removes "urn:", "uuid:" and braces, which text made
    of hexadecimal digits and hyphens does not contain.) *)
Definition UUID (hex : string) : outcome Z :=
  let h := drop_hyphens hex in
  if decide (String.length h = 32%nat) then
    match int16 0 h with
    | Some n => Return n
    | None => Raise (Foreign (ValueError "badly formed hexadecimal UUID string"))
    end
  else Raise (Foreign (ValueError "badly formed hexadecimal UUID string")).

Definition continuation (c : Z) : bool := between 0x80 c 0xBF.

(** Strict UTF-8: the well-formed byte sequences of the Unicode standard
    (no overlong forms, no surrogates, nothing above U+10FFFF). [start] is
    the offset of the sequence being read. *)
Fixpoint utf8_from (start : nat) (bs : list byte) : outcome (list Z) :=
  let bad := Raise (Foreign (UnicodeDecodeError start)) in
  match bs with
  | [] => Return []
  | b0 :: r0 =>
      let c0 := byte_val b0 in
      if c0 <? 0x80 then cons c0 <$> utf8_from (start + 1) r0
      else if between 0xC2 c0 0xDF then
        match r0 with
        | b1 :: r1 =>
            let c1 := byte_val b1 in
            if continuation c1
            then cons ((c0 - 0xC0) * 64 + (c1 - 0x80)) <$> utf8_from (start + 2) r1
            else bad
        | _ => bad
        end
      else if between 0xE0 c0 0xEF then
        match r0 with
        | b1 :: b2 :: r2 =>
            let c1 := byte_val b1 in
            let c2 := byte_val b2 in
            if between (if c0 =? 0xE0 then 0xA0 else 0x80) c1
                       (if c0 =? 0xED then 0x9F else 0xBF)
               && continuation c2
            then cons ((c0 - 0xE0) * 4096 + (c1 - 0x80) * 64 + (c2 - 0x80))
                   <$> utf8_from (start + 3) r2
            else bad
        | _ => bad
        end
      else if between 0xF0 c0 0xF4 then
        match r0 with
        | b1 :: b2 :: b3 :: r3 =>
            let c1 := byte_val b1 in
            let c2 := byte_val b2 in
            let c3 := byte_val b3 in
            if between (if c0 =? 0xF0 then 0x90 else 0x80) c1
                       (if c0 =? 0xF4 then 0x8F else 0xBF)
               && continuation c2 && continuation c3
            then cons ((c0 - 0xF0) * 262144 + (c1 - 0x80) * 4096
                       + (c2 - 0x80) * 64 + (c3 - 0x80))
                   <$> utf8_from (start + 4) r3
            else bad
        | _ => bad
        end
      else bad
  end.

Definition decode_utf8 (bs : list byte) : outcome (list Z) := utf8_from 0 bs.

(* ===================================================================== *)
(** ** Data types ([data_types.py])                                       *)
(* ===================================================================== *)

(** What a node read can hand back. *)
Inductive pyvalue : Type :=
  | PyNone
  | PyInt (n : Z)
  | PyFloat (x : float64)
  | PyStr (s : string).

Definition datetime : Type := Z.

Module JobInfo.
Record t : Type := mk {
  guid : Z;
  name : list Z;
  file_path : list Z;
  created_at : option datetime;
  status : option string
}.
End JobInfo.

Module PlanInfo.
Record t : Type := mk {
  job_guid : Z;
  plan_guid : Z;
  name : list Z;
  size_x : float64;
  size_y : float64;
  material_thickness : float64;
  total_runs : Z;
  total_parts : Z;
  plan_state : Z;
  estimated_cut_time : float64;
  parameter_file : option string
}.
End PlanInfo.

(** The dataclass annotates its fields [float] and [int]; nothing checks
    the annotation, so a field holds whatever it was given. *)
Module LaserParameters.
Record t : Type := mk {
  current_laser_power : pyvalue;
  gas_channel : pyvalue;
  gas_pressure : pyvalue;
  laser_power_deviation : pyvalue;
  laser_power_setpoint : pyvalue;
  process_operation_mode : pyvalue
}.
End LaserParameters.

Module MachineStatus.
Record t : Type := mk {
  machine_url : string;
  is_connected : bool;
  current_job : option JobInfo.t;
  laser_parameters : option LaserParameters.t;
  last_update : option datetime;
  error_message : option message
}.
End MachineStatus.

(* ===================================================================== *)
(** ** The OPC UA session, seen from the client                           *)
(* ===================================================================== *)

(** What the session answers while one client call, or one monitor cycle,
    runs. [work_current_job] is the value of Objects/Work/CurrentJob (the
    two [get_child] calls and the [get_value]): no value, or an extension
    object, given by its [Body]. *)
Record world : Type := {
  session_connect : outcome unit;
  session_disconnect : outcome unit;
  work_current_job : outcome (option (list byte));
  read_value : string -> outcome pyvalue;
  now : datetime
}.

(** Calls made on [self._client] that open or close the session. *)
Inductive session_call : Type :=
  | called_connect
  | called_disconnect.

(* ===================================================================== *)
(** ** [BystronicClient] ([client.py])                                    *)
(* ===================================================================== *)

Module BystronicClient.

Record t : Type := mk {
  url : string;
  timeout : Z;
  _connected : bool;
  session_calls : list session_call   (* ghost: calls made so far, oldest first *)
}.

Definition LASER_NODES : list string :=
  [ "ns=2;s=Laser.CurrentLaserPower";
    "ns=2;s=Laser.GasChannel";
    "ns=2;s=Laser.GasPressure";
    "ns=2;s=Laser.LaserPowerDeviation";
    "ns=2;s=Laser.LaserPowerSetpoint";
    "ns=2;s=Laser.ProcessOperationMode" ]%string.

(* __init__, with the default timeout *)
Definition init (url : string) : t :=
  {| url := url; timeout := 10; _connected := false; session_calls := [] |}.

Definition set_connected (b : bool) (self : t) : t :=
  {| url := url self; timeout := timeout self; _connected := b;
     session_calls := session_calls self |}.

Definition record_call (c : session_call) (self : t) : t :=
  {| url := url self; timeout := timeout self; _connected := _connected self;
     session_calls := session_calls self ++ [c] |}.

Definition connect (w : world) (self : t) : outcome unit * t :=
  let self := record_call called_connect self in
  match session_connect w with
  | Return _ => (Return tt, set_connected true self)
  | Raise e =>
      (Raise (ConnectionError
                (Caused ("Failed to connect to " +:+ url self +:+ ": ") (str e))),
       self)
  end.

Definition disconnect (w : world) (self : t) : outcome unit * t :=
  if _connected self then
    let self := record_call called_disconnect self in
    match session_disconnect w with
    | Return _ => (Return tt, set_connected false self)
    | Raise e => (Raise e, self)
    end
  else (Return tt, self).

Definition _ensure_connected (self : t) : outcome unit :=
  if negb (_connected self)
  then Raise (ConnectionError (Text "Client is not connected. Call connect() first."))
  else Return tt.

Definition _decode_job_info (extension_object : option (list byte))
  : outcome (option JobInfo.t) :=
  match extension_object with
  | None => Return None
  | Some body =>
      reraise (fun e => DataError (Caused "Failed to decode job info: " (str e)))
        (if Z.of_nat (length body) <? 36 then Return None
         else
           guid_parts ← unpack_IHH8s (take 16 body);
           let guid_str := guid_str guid_parts in
           name_length ← unpack_I (slice body 32 36);
           name ← decode_utf8 (slice body 36 (36 + name_length));
           let file_path_start := 36 + name_length in
           file_path_length ← unpack_I (slice body file_path_start (file_path_start + 4));
           file_path ← decode_utf8 (slice body (file_path_start + 4)
                                      (file_path_start + 4 + file_path_length));
           guid ← UUID guid_str;
           Return (Some (JobInfo.mk guid name file_path None None)))
  end.

Definition _decode_plan_info (extension_object : option (list byte))
  : outcome (option PlanInfo.t) :=
  match extension_object with
  | None => Return None
  | Some body =>
      reraise (fun e => DataError (Caused "Failed to decode plan info: " (str e)))
        (if Z.of_nat (length body) <? 36 then Return None
         else
           job_guid_parts ← unpack_IHH8s (take 16 body);
           let job_guid_str := guid_str job_guid_parts in
           plan_guid_parts ← unpack_IHH8s (slice body 16 32);
           let plan_guid_str := guid_str plan_guid_parts in
           name_length ← unpack_I (slice body 32 36);
           name ← decode_utf8 (slice body 36 (36 + name_length));
           let offset := 36 + name_length in
           '(size_x, size_y, material_thickness) ← unpack_ddd (slice body offset (offset + 24));
           let offset := offset + 24 in
           '(total_runs, total_parts) ← unpack_ii (slice body offset (offset + 8));
           let offset := offset + 8 in
           plan_state ← unpack_i (slice body offset (offset + 4));
           let offset := offset + 4 in
           estimated_cut_time ← unpack_d (slice body offset (offset + 8));
           job_guid ← UUID job_guid_str;
           plan_guid ← UUID plan_guid_str;
           Return (Some (PlanInfo.mk job_guid plan_guid name size_x size_y
                           material_thickness total_runs total_parts plan_state
                           estimated_cut_time None)))
  end.

Definition get_current_job (w : world) (self : t) : outcome (option JobInfo.t) :=
  reraise (fun e => DataError (Caused "Failed to get current job: " (str e)))
    (current_job ← work_current_job w; _decode_job_info current_job).

(** [node_id.split('.')[-1]] *)
Definition last_segment (node_id : string) : string :=
  List.last (split "." node_id) EmptyString.

(** One round of the [for node_id in self.LASER_NODES] loop: a read that
    raises is reported on standard output and stored as [None]. *)
Definition read_laser_node (w : world) (values : gmap string pyvalue)
    (node_id : string) : gmap string pyvalue :=
  match read_value w node_id with
  | Return value => <[last_segment node_id := value]> values
  | Raise _ => <[last_segment node_id := PyNone]> values
  end.

(** [values.get(key, default)] *)
Definition get (values : gmap string pyvalue) (key : string) (dflt : pyvalue)
  : pyvalue :=
  default dflt (values !! key).

Definition get_laser_parameters (w : world) (self : t)
  : outcome LaserParameters.t :=
  let values := fold_left (read_laser_node w) LASER_NODES ∅ in
  Return
    (LaserParameters.mk
       (get values "CurrentLaserPower" (PyFloat 0))
       (get values "GasChannel" (PyInt 0))
       (get values "GasPressure" (PyFloat 0))
       (get values "LaserPowerDeviation" (PyFloat 0))
       (get values "LaserPowerSetpoint" (PyFloat 0))
       (get values "ProcessOperationMode" (PyInt 0))).

Definition get_machine_status (w : world) (self : t) : outcome MachineStatus.t :=
  match
    current_job ← get_current_job w self;
    laser_params ← get_laser_parameters w self;
    Return (MachineStatus.mk (url self) (_connected self) current_job
              (Some laser_params) (Some (now w)) None)
  with
  | Return status => Return status
  | Raise e =>
      Return (MachineStatus.mk (url self) false None None (Some (now w))
                (Some (str e)))
  end.

End BystronicClient.

(* ===================================================================== *)
(** ** [MachineMonitor] ([monitor.py])                                    *)
(* ===================================================================== *)

(** What a monitor task does that an observer can see, in order. *)
Inductive event : Type :=
  | Published (machine_name : string) (status : MachineStatus.t)
  | Slept (seconds : Z).

Module MachineMonitor.

Record t : Type := mk {
  machines : gmap string string;
  update_interval : Z;
  retry_attempts : Z;
  _clients : gmap string BystronicClient.t;
  _status : gmap string MachineStatus.t;
  _monitoring : bool
}.

(** [MachineStatus(machine_url=url, is_connected=False)] *)
Definition initial_status (url : string) : MachineStatus.t :=
  MachineStatus.mk url false None None None None.

(** The [for name, url in machines.items()] loop of [__init__]. *)
Definition add_machine (name url : string)
    (acc : gmap string BystronicClient.t * gmap string MachineStatus.t)
  : gmap string BystronicClient.t * gmap string MachineStatus.t :=
  (<[name := BystronicClient.init url]> acc.1,
   <[name := initial_status url]> acc.2).

Definition init (machines : gmap string string)
    (update_interval retry_attempts : Z) : t :=
  let tables := map_fold add_machine (∅, ∅) machines in
  mk machines update_interval retry_attempts tables.1 tables.2 false.

Definition set_monitoring (b : bool) (self : t) : t :=
  mk (machines self) (update_interval self) (retry_attempts self)
     (_clients self) (_status self) b.

(** [self._status[machine_name] = status] *)
Definition set_status (machine_name : string) (status : MachineStatus.t)
    (self : t) : t :=
  mk (machines self) (update_interval self) (retry_attempts self)
     (_clients self) (<[machine_name := status]> (_status self))
     (_monitoring self).

(** The client is one object, shared through [_clients]: a change made
    by a method call is seen there. *)
Definition set_client (machine_name : string) (client : BystronicClient.t)
    (self : t) : t :=
  mk (machines self) (update_interval self) (retry_attempts self)
     (<[machine_name := client]> (_clients self)) (_status self)
     (_monitoring self).

(** [start_monitoring], without the task bookkeeping: the tasks are the
    runs of [_monitor_machine] below. *)
Definition start_monitoring (self : t) : t :=
  if _monitoring self then self else set_monitoring true self.

(** The local state of one run of [_monitor_machine]. *)
Record task : Type := mk_task {
  self : t;
  retry_count : Z;
  events : list event
}.

Definition emit (e : event) (k : task) : task :=
  mk_task (self k) (retry_count k) (events k ++ [e]).

Definition publish (machine_name : string) (status : MachineStatus.t)
    (k : task) : task :=
  emit (Published machine_name status)
    (mk_task (set_status machine_name status (self k)) (retry_count k) (events k)).

Definition sleep (seconds : Z) (k : task) : task := emit (Slept seconds) k.

Definition set_retry_count (n : Z) (k : task) : task :=
  mk_task (self k) n (events k).

Definition with_client (machine_name : string) (client : BystronicClient.t)
    (k : task) : task :=
  mk_task (set_client machine_name client (self k)) (retry_count k) (events k).

(** The [try] block of the loop body; what the task has done so far is
    kept when the block raises. *)
Definition try_block (w : world) (machine_name : string)
    (client : BystronicClient.t) (k : task) : outcome unit * task :=
  let '(connected, client, k) :=
    if negb (BystronicClient._connected client) then
      let '(r, client) := BystronicClient.connect w client in
      let k := with_client machine_name client k in
      match r with
      | Return _ => (Return tt, client, set_retry_count 0 k)
      | Raise e => (Raise e, client, k)
      end
    else (Return tt, client, k) in
  match connected with
  | Raise e => (Raise e, k)
  | Return _ =>
      match BystronicClient.get_machine_status w client with
      | Raise e => (Raise e, k)
      | Return status =>
          let k := publish machine_name status k in
          let k := sleep (update_interval (self k)) k in
          (Return tt, k)
      end
  end.

(** [except ConnectionError as e] *)
Definition on_connection_error (w : world) (client : BystronicClient.t)
    (machine_name : string) (e : exn) (k : task) : task :=
  let k := set_retry_count (retry_count k + 1) k in
  if retry_count k <=? retry_attempts (self k) then
    let wait_time := Z.min (retry_count k * 10) 60 in
    sleep wait_time k
  else
    let k := publish machine_name
               (MachineStatus.mk (BystronicClient.url client) false None None
                  (Some (now w)) (Some (str e))) k in
    let k := sleep (update_interval (self k)) k in
    set_retry_count 0 k.

(** [except Exception as e] *)
Definition on_exception (w : world) (client : BystronicClient.t)
    (machine_name : string) (e : exn) (k : task) : task :=
  let k := publish machine_name
             (MachineStatus.mk (BystronicClient.url client) false None None
                (Some (now w)) (Some (str e))) k in
  sleep (update_interval (self k)) k.

(** One pass through the body of [while self._monitoring]. *)
Definition cycle (w : world) (machine_name : string)
    (client : BystronicClient.t) (k : task) : task :=
  match try_block w machine_name client k with
  | (Return _, k) => k
  | (Raise (ConnectionError m), k) =>
      on_connection_error w client machine_name (ConnectionError m) k
  | (Raise e, k) => on_exception w client machine_name e k
  end.

(** [_monitor_machine], one [world] per pass; it stops when the worlds
    run out (the task is cancelled) or [_monitoring] is off.
    [self._clients[machine_name]] raises [KeyError] for a name that was
    not configured, which ends the task before its first pass. *)
Fixpoint monitor_loop (ws : list world) (machine_name : string) (k : task)
  : task :=
  match ws with
  | [] => k
  | w :: ws =>
      if _monitoring (self k) then
        match _clients (self k) !! machine_name with
        | Some client => monitor_loop ws machine_name (cycle w machine_name client k)
        | None => k
        end
      else k
  end.

Definition _monitor_machine (ws : list world) (machine_name : string)
    (monitor : t) : task :=
  monitor_loop ws machine_name (mk_task monitor 0 []).

(** The fleet: one task per machine. Each task keeps its own
    [retry_count], all of them share [self], and their passes interleave
    in any order. A pass writes only its own machine's entries. *)
Record fleet : Type := mk_fleet {
  monitor : t;
  retry_counts : gmap string Z;
  history : list event
}.

Definition fleet_pass (machine_name : string) (w : world) (fl : fleet) : fleet :=
  if _monitoring (monitor fl) then
    match _clients (monitor fl) !! machine_name with
    | Some client =>
        let k := cycle w machine_name client
                   (mk_task (monitor fl)
                      (default 0 (retry_counts fl !! machine_name))
                      (history fl)) in
        mk_fleet (self k) (<[machine_name := retry_count k]> (retry_counts fl))
          (events k)
    | None => fl
    end
  else fl.

Definition run_fleet (schedule : list (string * world)) (monitor : t) : fleet :=
  fold_left (fun fl p => fleet_pass p.1 p.2 fl) schedule
    (mk_fleet monitor ∅ []).

(** [self._status.get(machine_name)] *)
Definition get_machine_status (self : t) (machine_name : string)
  : option MachineStatus.t :=
  _status self !! machine_name.

End MachineMonitor.

(* ===================================================================== *)
(** ** Vocabulary of the properties                                       *)
(* ===================================================================== *)

(** The status table as the record of what was published: each
    publication overwrites the entry of its machine. *)
Definition apply_event (table : gmap string MachineStatus.t) (e : event)
  : gmap string MachineStatus.t :=
  match e with
  | Published machine_name status => <[machine_name := status]> table
  | Slept _ => table
  end.

Definition replay (evs : list event) (table : gmap string MachineStatus.t)
  : gmap string MachineStatus.t :=
  fold_left apply_event evs table.

(** [error_message] is set only when [is_connected] is false. *)
Definition status_ok (s : MachineStatus.t) : Prop :=
  is_Some (MachineStatus.error_message s) -> MachineStatus.is_connected s = false.

Definition event_ok (e : event) : Prop :=
  match e with
  | Published _ status => status_ok status
  | Slept _ => True
  end.

Definition publishes (machine_name : string) (e : event) : Prop :=
  exists status, e = Published machine_name status.

(** What a task has done between two of its states: it appended events,
    the status table followed the publications among them, every published
    status is in order, and the configuration stayed. *)
Inductive pass_effect (k k' : MachineMonitor.task) : Prop :=
  | PassEffect (new : list event)
      (Hevents : MachineMonitor.events k' = MachineMonitor.events k ++ new)
      (Hstatus :
         MachineMonitor._status (MachineMonitor.self k')
         = replay new (MachineMonitor._status (MachineMonitor.self k)))
      (Hok : Forall event_ok new)
      (Hmonitoring :
         MachineMonitor._monitoring (MachineMonitor.self k')
         = MachineMonitor._monitoring (MachineMonitor.self k))
      (Hinterval :
         MachineMonitor.update_interval (MachineMonitor.self k')
         = MachineMonitor.update_interval (MachineMonitor.self k))
      (Hattempts :
         MachineMonitor.retry_attempts (MachineMonitor.self k')
         = MachineMonitor.retry_attempts (MachineMonitor.self k)).

(** The status published when the retries are used up. *)
Definition connect_failure_status (client : BystronicClient.t) (w : world)
    (e : exn) : MachineStatus.t :=
  MachineStatus.mk (BystronicClient.url client) false None None (Some (now w))
    (Some (Caused ("Failed to connect to " +:+ BystronicClient.url client +:+ ": ")
             (str e))).

(** The fleet, seen as one task that did everything in its history. *)
Definition task_of (fl : MachineMonitor.fleet) : MachineMonitor.task :=
  MachineMonitor.mk_task (MachineMonitor.monitor fl) 0 (MachineMonitor.history fl).



(** C4 as stated: no status for a configured machine before a publication. *)
Definition absent_before_first_publish : Prop :=
  forall (machines : gmap string string) (update_interval retry_attempts : Z)
         (name url : string),
    machines !! name = Some url ->
    MachineMonitor.get_machine_status
      (MachineMonitor.start_monitoring
         (MachineMonitor.init machines update_interval retry_attempts)) name
    = None.

(** Text made of hexadecimal digits only. *)
Fixpoint all_hex (s : string) : Prop :=
  match s with
  | EmptyString => True
  | String c r => is_Some (hexval c) /\ all_hex r
  end.

(** The integer of a GUID, from the four unpacked parts: the three numbers,
    then the eight raw bytes in the order they come. *)
Definition guid_int (parts : Z * Z * Z * list byte) : Z :=
  let '(p0, p1, p2, p3) := parts in
  (((p0 * 16 ^ 4 + p1) * 16 ^ 4 + p2) * 16 ^ 4 + be_uint (take 2 p3)) * 16 ^ 12
  + be_uint (drop 2 p3).

(** C8 as stated: the last two groups of the text would be the digits of
    the first four raw bytes and of the last four. *)
Definition raw_bytes_split_4_4 : Prop :=
  forall (region : list byte) (p0 p1 p2 : Z) (raw : list byte),
    length region = 16%nat ->
    unpack_IHH8s region = Return (p0, p1, p2, raw) ->
    exists g1 g2 g3,
      split "-" (guid_str (p0, p1, p2, raw))
      = [g1; g2; g3; hex (take 4 raw); hex (drop 4 raw)].

(** The 128-bit identifier that the decoders make of a 16-byte region. *)
Definition guid_of (region : list byte) : outcome Z :=
  guid_parts ← unpack_IHH8s region; UUID (guid_str guid_parts).

(* ===================================================================== *)
(** ** More of [client.py] and [monitor.py]                               *)
(* ===================================================================== *)

(** [BystronicClient._call_method]. [method_node_id] is the text of the
    method's node identifier and [answer] what the session does with
    [object_node.call_method(method_node, *input_args)]. The check of the
    connection stands before the [try]. *)
Definition _call_method {R : Type} (method_node_id : string)
    (answer : outcome R) (self : BystronicClient.t) : outcome R :=
  _ ← BystronicClient._ensure_connected self;
  reraise
    (fun e =>
       MethodCallError
         (Caused ("Method call failed " +:+ method_node_id +:+ ": ") (str e)))
    answer.

(** What [_ensure_connected] raises. *)
Definition not_connected : exn :=
  ConnectionError (Text "Client is not connected. Call connect() first.").

(** [MachineMonitor.stop_monitoring]. Cancelling and joining the tasks is
    the end of their runs; what is left is the flag and the loop over
    [self._clients.values()], in which an error of [disconnect] is logged
    and dropped. [ws name] is what the session of [name] answers. *)
Definition stop_monitoring (ws : string -> world) (self : MachineMonitor.t)
  : MachineMonitor.t :=
  if negb (MachineMonitor._monitoring self) then self
  else
    MachineMonitor.mk (MachineMonitor.machines self)
      (MachineMonitor.update_interval self) (MachineMonitor.retry_attempts self)
      (map_imap
         (fun name client => Some (BystronicClient.disconnect (ws name) client).2)
         (MachineMonitor._clients self))
      (MachineMonitor._status self) false.

(** [MachineMonitor.get_connected_machines] and
    [get_disconnected_machines]: the names of [self._status.items()] whose
    status passes the test. The order of a dictionary is not kept by the
    table, so only membership in these lists means something. *)
Definition get_connected_machines (self : MachineMonitor.t) : list string :=
  (filter (fun p => MachineStatus.is_connected p.2 = true)
     (map_to_list (MachineMonitor._status self))).*1.

Definition get_disconnected_machines (self : MachineMonitor.t) : list string :=
  (filter (fun p => MachineStatus.is_connected p.2 = false)
     (map_to_list (MachineMonitor._status self))).*1.

(** [MachineMonitor.get_machine_client]: [self._clients.get(machine_name)]. *)
Definition get_machine_client (self : MachineMonitor.t) (machine_name : string)
  : option BystronicClient.t :=
  MachineMonitor._clients self !! machine_name.

(** [struct.pack("<I", x)] and its like: the [n] low bytes of [x], the
    lowest first. *)
Definition byte_of (z : Z) : byte :=
  default x00 (Byte.of_N (Z.to_N (z mod 256))).

Fixpoint le_bytes (n : nat) (x : Z) : list byte :=
  match n with
  | O => []
  | S k => byte_of x :: le_bytes k (x / 256)
  end.

(** The bytes of a GUID in the order [uuid.UUID(bytes=...)] reads them:
    the three little-endian numbers turned around, the raw bytes as they
    are. *)
Definition guid_bytes_be (region : list byte) : list byte :=
  rev (take 4 region) ++ rev (take 2 (drop 4 region))
    ++ rev (take 2 (drop 6 region)) ++ drop 8 region.

(** The events of one pass over a connected client. *)
Definition polled (machine_name : string) (client : BystronicClient.t)
    (update_interval : Z) (w : world) : list event :=
  match BystronicClient.get_machine_status w client with
  | Return status => [Published machine_name status; Slept update_interval]
  | Raise _ => []
  end.

(** The three shapes of what one pass appends to the events. *)
Inductive pass_events (machine_name : string) (update_interval : Z)
    : list event -> Prop :=
  | pass_published (status : MachineStatus.t) :
      pass_events machine_name update_interval
        [Published machine_name status; Slept update_interval]
  | pass_backoff (wait_time : Z) :
      10 <= wait_time <= 60 ->
      pass_events machine_name update_interval [Slept wait_time].

(* ===================================================================== *)
(** ** Sample inputs                                                      *)
(* ===================================================================== *)

Ltac run_binds := cbv [mbind outcome_bind mret outcome_ret reraise].

Module Sample.

(** Ten bytes: shorter than the header. *)
Definition short_body : list byte := repeat x00 10.

(** A 36-byte header that declares a name of 5 bytes and stops. *)
Definition truncated_body : list byte :=
  repeat x00 32 ++ [x05; x00; x00; x00].

(** The bytes 00, 01, ... 0f. *)
Definition region : list byte :=
  [x00; x01; x02; x03; x04; x05; x06; x07;
   x08; x09; x0a; x0b; x0c; x0d; x0e; x0f].

(** The bytes f0, f1, ... ff. *)
Definition other_region : list byte :=
  [xf0; xf1; xf2; xf3; xf4; xf5; xf6; xf7;
   xf8; xf9; xfa; xfb; xfc; xfd; xfe; xff].

(** A plan record: two identifiers, the name "P1", then 44 zero bytes
    for the three sizes, the two counts, the state and the cut time. *)
Definition plan_body : list byte :=
  region ++ other_region ++ [x02; x00; x00; x00] ++ [x50; x31] ++ repeat x00 44.

Definition plan : PlanInfo.t :=
  {| PlanInfo.job_guid := 0x030201000504070608090a0b0c0d0e0f;
     PlanInfo.plan_guid := 0xf3f2f1f0f5f4f7f6f8f9fafbfcfdfeff;
     PlanInfo.name := [80; 49];
     PlanInfo.size_x := 0;
     PlanInfo.size_y := 0;
     PlanInfo.material_thickness := 0;
     PlanInfo.total_runs := 0;
     PlanInfo.total_parts := 0;
     PlanInfo.plan_state := 0;
     PlanInfo.estimated_cut_time := 0;
     PlanInfo.parameter_file := None |}.

Definition machine_url : string := "opc.tcp://192.168.1.100:56000".

Definition one_machine : gmap string string := {[ "laser1" := machine_url ]}.

(** A session that answers every call. *)
Definition healthy : world :=
  {| session_connect := Return tt;
     session_disconnect := Return tt;
     work_current_job := Return None;
     read_value := fun node_id =>
       if String.eqb node_id "ns=2;s=Laser.GasChannel" then Return (PyInt 2)
       else if String.eqb node_id "ns=2;s=Laser.ProcessOperationMode"
            then Return (PyInt 1)
            else Return (PyFloat 4661225614328463360);
     now := 1700000000 |}.

(** The same session, except that one node cannot be read. *)
Definition power_unreadable : world :=
  {| session_connect := Return tt;
     session_disconnect := Return tt;
     work_current_job := Return None;
     read_value := fun node_id =>
       if String.eqb node_id "ns=2;s=Laser.CurrentLaserPower"
       then Raise (Foreign (SessionError "BadNodeIdUnknown"))
       else read_value healthy node_id;
     now := 1700000000 |}.

(** A controller that refuses the connection at time [t]. *)
Definition unreachable (t : datetime) : world :=
  {| session_connect := Raise (Foreign (SessionError "Connection refused"));
     session_disconnect := Return tt;
     work_current_job := Raise (Foreign (SessionError "Connection refused"));
     read_value := fun _ => Raise (Foreign (SessionError "Connection refused"));
     now := t |}.

(** An open session whose link drops: every read fails. *)
Definition link_lost : world :=
  {| session_connect := Return tt;
     session_disconnect := Return tt;
     work_current_job := Raise (Foreign (SessionError "Connection lost"));
     read_value := fun _ => Raise (Foreign (SessionError "Connection lost"));
     now := 1700000030 |}.

Definition fresh_client : BystronicClient.t := BystronicClient.init machine_url.

(** A monitor of one machine, started, with the default settings. *)
Definition monitor : MachineMonitor.t :=
  MachineMonitor.start_monitoring (MachineMonitor.init one_machine 30 3).

Definition refused : exn := Foreign (SessionError "Connection refused").

(** The status published after the fourth refusal. *)
Definition soft_failed : MachineStatus.t :=
  connect_failure_status fresh_client (unreachable 61) refused.

(** One failed connect: the task is in its first backoff wait. *)
Definition first_backoff : list (string * world) :=
  [("laser1", unreachable 1)]%string.

(** Four failed connects in a row: the retries are used up. *)
Definition retries_used_up : list (string * world) :=
  [("laser1", unreachable 1); ("laser1", unreachable 11);
   ("laser1", unreachable 31); ("laser1", unreachable 61)]%string.

Definition connected_client : BystronicClient.t :=
  BystronicClient.set_connected true fresh_client.

End Sample.

(** More sample inputs. *)
Module Example.



(** Sixteen bytes that the job decoder skips. *)
Definition skipped : list byte := repeat xaa 16.

(** "P1" and "/b" in UTF-8. *)
Definition name_bytes : list byte := [x50; x31].
Definition path_bytes : list byte := [x2f; x62].

Definition job : JobInfo.t :=
  {| JobInfo.guid := 0x030201000504070608090a0b0c0d0e0f;
     JobInfo.name := [80; 49];
     JobInfo.file_path := [47; 98];
     JobInfo.created_at := None;
     JobInfo.status := None |}.

(** The fields behind the name of a plan record: three sizes, two counts
    (the second one is -1), a state and a cut time. *)
Definition d1 : list byte := [x00; x00; x00; x00; x00; x00; xf0; x3f].
Definition d2 : list byte := [x00; x00; x00; x00; x00; x00; x00; x40].
Definition d3 : list byte := [x00; x00; x00; x00; x00; x00; x08; x40].
Definition i1 : list byte := [x07; x00; x00; x00].
Definition i2 : list byte := [xff; xff; xff; xff].
Definition i3 : list byte := [x02; x00; x00; x00].
Definition d4 : list byte := [x00; x00; x00; x00; x00; x00; x24; x40].

Definition plan : PlanInfo.t :=
  {| PlanInfo.job_guid := 0x030201000504070608090a0b0c0d0e0f;
     PlanInfo.plan_guid := 0xf3f2f1f0f5f4f7f6f8f9fafbfcfdfeff;
     PlanInfo.name := [80; 49];
     PlanInfo.size_x := 0x3ff0000000000000;
     PlanInfo.size_y := 0x4000000000000000;
     PlanInfo.material_thickness := 0x4008000000000000;
     PlanInfo.total_runs := 7;
     PlanInfo.total_parts := -1;
     PlanInfo.plan_state := 2;
     PlanInfo.estimated_cut_time := 0x4024000000000000;
     PlanInfo.parameter_file := None |}.

(** Two machines; the second session cannot be closed. *)
Definition two_machines : gmap string string :=
  {[ "laser1" := "opc.tcp://192.168.1.100:56000";
     "laser2" := "opc.tcp://192.168.1.101:56000" ]}%string.

Definition stuck : world :=
  {| session_connect := Return tt;
     session_disconnect := Raise (Foreign (SessionError "Timeout"));
     work_current_job := Return None;
     read_value := read_value Sample.healthy;
     now := 1700000000 |}.

Definition sessions (name : string) : world :=
  if String.eqb name "laser2" then stuck else Sample.healthy.

(** Both machines polled once, then the monitor is stopped. *)
Definition both_polled : list (string * world) :=
  [("laser1", Sample.healthy); ("laser2", stuck)]%string.

Definition fleet : MachineMonitor.t :=
  MachineMonitor.start_monitoring (MachineMonitor.init two_machines 30 3).

End Example.

(* ===================================================================== *)
(** * Properties                                                          *)
(* ===================================================================== *)

(** ** Byte strings and slices *)

Lemma byte_val_range b : 0 <= byte_val b < 256.
Proof.
  unfold byte_val. pose proof (Byte.to_N_bounded b). lia.
Qed.

Lemma byte_val_inj b b' : byte_val b = byte_val b' -> b = b'.
Proof.
  unfold byte_val. intros H.
  assert (E : Byte.to_N b = Byte.to_N b') by lia.
  pose proof (Byte.of_to_N b) as Hb.
  rewrite E, Byte.of_to_N in Hb. congruence.
Qed.

Lemma struct_size_ok n buf : length buf = n -> struct_size n buf = Return tt.
Proof. intros H. unfold struct_size. by rewrite decide_True. Qed.

Lemma struct_size_bad n buf :
  length buf <> n -> struct_size n buf = Raise (Foreign (struct_error n)).
Proof. intros H. unfold struct_size. by rewrite decide_False. Qed.

Lemma slice_length {A} (l : list A) lo hi :
  0 <= lo -> lo <= hi -> hi <= Z.of_nat (length l) ->
  length (slice l lo hi) = Z.to_nat (hi - lo).
Proof.
  intros. unfold slice. rewrite length_take, length_drop. lia.
Qed.

Lemma slice_beyond {A} (l : list A) lo hi :
  Z.of_nat (length l) <= lo -> slice l lo hi = [].
Proof.
  intros. unfold slice. rewrite drop_ge by lia. by rewrite take_nil.
Qed.

(** ** [bytes.decode] raises nothing but [UnicodeDecodeError] *)

Lemma fmap_outcome_raise {A B} (f : A -> B) (m : outcome A) e :
  f <$> m = Raise e -> m = Raise e.
Proof. destruct m; cbv [fmap outcome_fmap]; [discriminate | by intros [= ->]]. Qed.

Lemma utf8_from_raise_bounded n : forall bs start e,
  (length bs <= n)%nat ->
  utf8_from start bs = Raise e -> exists p, e = Foreign (UnicodeDecodeError p).
Proof.
  induction n as [|n IH]; intros bs start e Hlen H.
  - destruct bs; [discriminate | simpl in Hlen; lia].
  - destruct bs as [|b0 r0]; [discriminate|].
    simpl in H. simpl in Hlen.
    repeat match type of H with
    | (if ?c then _ else _) = _ => destruct c
    | match ?l with [] => _ | _ :: _ => _ end = _ => destruct l; simpl in Hlen
    | _ <$> _ = Raise _ => apply fmap_outcome_raise, IH in H; [exact H | lia]
    | Raise _ = Raise _ => injection H as <-; eexists; reflexivity
    end.
Qed.

Lemma decode_utf8_raise bs e :
  decode_utf8 bs = Raise e -> exists p, e = Foreign (UnicodeDecodeError p).
Proof. apply (utf8_from_raise_bounded (length bs)). lia. Qed.

(** ** The decoders on absent, short and truncated buffers *)

Lemma unpack_IHH8s_ok region :
  length region = 16%nat ->
  unpack_IHH8s region =
    Return (le_uint (take 4 region), le_uint (take 2 (drop 4 region)),
            le_uint (take 2 (drop 6 region)), drop 8 region).
Proof. intros H. unfold unpack_IHH8s. by rewrite struct_size_ok. Qed.

Lemma unpack_I_ok buf : length buf = 4%nat -> unpack_I buf = Return (le_uint buf).
Proof. intros H. unfold unpack_I. by rewrite struct_size_ok. Qed.

Lemma header_lengths (body : list byte) :
  (36 <= length body)%nat ->
  length (take 16 body) = 16%nat /\ length (slice body 16 32) = 16%nat
  /\ length (slice body 32 36) = 4%nat.
Proof.
  intros H. rewrite length_take. rewrite !slice_length by lia. lia.
Qed.

(** C6. A missing extension object, and one whose body is shorter than the
    36-byte header, decode to [None] in both decoders; nothing is raised. *)
Theorem decode_absent_or_short (extension_object : option (list byte)) :
  (forall body, extension_object = Some body -> (length body < 36)%nat) ->
  BystronicClient._decode_job_info extension_object = Return None
  /\ BystronicClient._decode_plan_info extension_object = Return None.
Proof.
  intros Hshort. destruct extension_object as [body|]; [|done].
  specialize (Hshort body eq_refl).
  unfold BystronicClient._decode_job_info, BystronicClient._decode_plan_info.
  assert ((Z.of_nat (length body) <? 36) = true) as -> by (apply Z.ltb_lt; lia).
  done.
Qed.

(** C5. A body of at least 36 bytes whose declared name length runs past
    its end makes both decoders raise [DataError] around the underlying
    cause: the [struct.error] of the first field read behind the name, or
    the [UnicodeDecodeError] of the clipped name. *)
Theorem decode_truncated_name_fails (body : list byte) :
  (36 <= length body)%nat ->
  36 + le_uint (slice body 32 36) > Z.of_nat (length body) ->
  (exists c,
     BystronicClient._decode_job_info (Some body)
       = Raise (DataError (Caused "Failed to decode job info: " (OfCause c)))
     /\ (c = struct_error 4 \/ exists p, c = UnicodeDecodeError p))
  /\ (exists c,
     BystronicClient._decode_plan_info (Some body)
       = Raise (DataError (Caused "Failed to decode plan info: " (OfCause c)))
     /\ (c = struct_error 24 \/ exists p, c = UnicodeDecodeError p)).
Proof.
  intros Hlen Hover.
  destruct (header_lengths body Hlen) as (H16 & H32 & H36).
  unfold BystronicClient._decode_job_info, BystronicClient._decode_plan_info.
  assert ((Z.of_nat (length body) <? 36) = false) as -> by (apply Z.ltb_ge; lia).
  rewrite !unpack_IHH8s_ok by done. rewrite unpack_I_ok by done.
  set (L := le_uint (slice body 32 36)) in *.
  run_binds.
  destruct (decode_utf8 (slice body 36 (36 + L))) as [name|e] eqn:Hname.
  - rewrite !slice_beyond by lia.
    split; eexists; (split; [reflexivity | by left]).
  - destruct (decode_utf8_raise _ _ Hname) as [p ->].
    split; eexists; (split; [reflexivity | right; by eexists]).
Qed.

Lemma decode_absent_or_short_witness :
  (forall body, Some Sample.short_body = Some body -> (length body < 36)%nat)
  /\ BystronicClient._decode_job_info (Some Sample.short_body) = Return None
  /\ BystronicClient._decode_plan_info (Some Sample.short_body) = Return None.
Proof.
  assert (H : forall body,
             Some Sample.short_body = Some body -> (length body < 36)%nat).
  { intros body [= <-]. vm_compute. lia. }
  split; [exact H | exact (decode_absent_or_short (Some Sample.short_body) H)].
Defined.

Lemma decode_truncated_name_fails_witness :
  (36 <= length Sample.truncated_body)%nat
  /\ 36 + le_uint (slice Sample.truncated_body 32 36)
       > Z.of_nat (length Sample.truncated_body)
  /\ (exists c,
       BystronicClient._decode_job_info (Some Sample.truncated_body)
         = Raise (DataError (Caused "Failed to decode job info: " (OfCause c)))
       /\ (c = struct_error 4 \/ exists p, c = UnicodeDecodeError p))
  /\ (exists c,
       BystronicClient._decode_plan_info (Some Sample.truncated_body)
         = Raise (DataError (Caused "Failed to decode plan info: " (OfCause c)))
       /\ (c = struct_error 24 \/ exists p, c = UnicodeDecodeError p)).
Proof.
  assert (H1 : (36 <= length Sample.truncated_body)%nat) by (vm_compute; lia).
  assert (H2 : 36 + le_uint (slice Sample.truncated_body 32 36)
               > Z.of_nat (length Sample.truncated_body)) by (vm_compute; reflexivity).
  split; [exact H1 | split; [exact H2 |]].
  exact (decode_truncated_name_fails Sample.truncated_body H1 H2).
Defined.

(** ** The client session *)

(** C10. When the session refuses the connection, [connect] raises
    [ConnectionError] and leaves the client as it was, apart from the record
    that the session was called: the flag keeps its value, so a flag that was
    false is still false. On a client whose flag is false [disconnect]
    returns at once and changes nothing; in particular no call of the
    session is recorded. *)
Theorem connect_failure_keeps_state (w : world) (self : BystronicClient.t)
    (e : exn) :
  session_connect w = Raise e ->
  exists self',
    BystronicClient.connect w self
      = (Raise (ConnectionError
                  (Caused ("Failed to connect to " +:+ BystronicClient.url self +:+ ": ")
                     (str e))), self')
    /\ BystronicClient._connected self' = BystronicClient._connected self
    /\ BystronicClient.url self' = BystronicClient.url self
    /\ BystronicClient.timeout self' = BystronicClient.timeout self
    /\ BystronicClient.session_calls self'
         = BystronicClient.session_calls self ++ [called_connect]
    /\ (BystronicClient._connected self = false ->
        BystronicClient._connected self' = false
        /\ forall w', BystronicClient.disconnect w' self' = (Return tt, self')).
Proof.
  intros Hfail.
  exists (BystronicClient.record_call called_connect self).
  unfold BystronicClient.connect, BystronicClient.disconnect. rewrite Hfail.
  simpl. repeat split; try assumption. intros w'. by rewrite H.
Qed.

Lemma connect_failure_keeps_state_witness :
  session_connect (Sample.unreachable 0)
    = Raise (Foreign (SessionError "Connection refused"))
  /\ BystronicClient._connected Sample.fresh_client = false
  /\ exists self',
       BystronicClient.connect (Sample.unreachable 0) Sample.fresh_client
         = (Raise (ConnectionError
                     (Caused ("Failed to connect to "
                                +:+ BystronicClient.url Sample.fresh_client +:+ ": ")
                        (str (Foreign (SessionError "Connection refused"))))), self')
       /\ BystronicClient._connected self' = false
       /\ BystronicClient.session_calls self' = [called_connect]
       /\ forall w', BystronicClient.disconnect w' self' = (Return tt, self').
Proof.
  split; [reflexivity | split; [reflexivity |]].
  destruct (connect_failure_keeps_state (Sample.unreachable 0) Sample.fresh_client
              (Foreign (SessionError "Connection refused")) eq_refl)
    as (self' & Hc & _ & _ & _ & Hcalls & Hfalse).
  exists self'. destruct (Hfalse eq_refl) as [Hflag Hdisc].
  split; [exact Hc | split; [exact Hflag | split; [exact Hcalls | exact Hdisc]]].
Defined.

(** ** Laser parameters *)

Lemma laser_parameters_total (w : world) (self : BystronicClient.t) :
  exists lp, BystronicClient.get_laser_parameters w self = Return lp.
Proof. eexists. reflexivity. Qed.

(** A reading that fails is stored as [None], so the default given to
    [values.get] is never used. *)
Lemma laser_failed_read (w : world) (self : BystronicClient.t) (e : exn) :
  read_value w "ns=2;s=Laser.CurrentLaserPower" = Raise e ->
  exists lp, BystronicClient.get_laser_parameters w self = Return lp
             /\ LaserParameters.current_laser_power lp = PyNone.
Proof.
  intros H. eexists. split; [reflexivity|].
  unfold BystronicClient.get_laser_parameters, BystronicClient.LASER_NODES.
  cbn [fold_left LaserParameters.current_laser_power].
  unfold BystronicClient.read_laser_node. rewrite H.
  repeat match goal with
  | |- context [read_value w ?n] => destruct (read_value w n)
  end; vm_compute; reflexivity.
Qed.

(** C1. With the node of the current laser power unreadable, the snapshot is
    built, and its [current_laser_power] is [None], not [0.0]; the readings
    that succeed are stored as read. *)
Theorem laser_power_unreadable_gives_None :
  BystronicClient.get_laser_parameters Sample.power_unreadable Sample.connected_client
  = Return
      {| LaserParameters.current_laser_power := PyNone;
         LaserParameters.gas_channel := PyInt 2;
         LaserParameters.gas_pressure := PyFloat 4661225614328463360;
         LaserParameters.laser_power_deviation := PyFloat 4661225614328463360;
         LaserParameters.laser_power_setpoint := PyFloat 4661225614328463360;
         LaserParameters.process_operation_mode := PyInt 1 |}.
Proof. vm_compute. reflexivity. Qed.

(** ** The status table after [__init__] *)

Lemma init_tables (machines : gmap string string) (name : string) :
  let tables := map_fold MachineMonitor.add_machine (∅, ∅) machines in
  tables.1 !! name = BystronicClient.init <$> machines !! name
  /\ tables.2 !! name = MachineMonitor.initial_status <$> machines !! name.
Proof.
  apply (map_fold_weak_ind
           (fun acc (m : gmap string string) =>
              acc.1 !! name = BystronicClient.init <$> m !! name
              /\ acc.2 !! name = MachineMonitor.initial_status <$> m !! name)).
  - by rewrite !lookup_empty.
  - intros i x m r _ [IH1 IH2]. unfold MachineMonitor.add_machine. simpl.
    destruct (decide (i = name)) as [->|Hne].
    + by rewrite !lookup_insert_eq.
    + by rewrite !lookup_insert_ne.
Qed.

Lemma init_status (machines : gmap string string) ui ra name :
  MachineMonitor._status (MachineMonitor.init machines ui ra) !! name
  = MachineMonitor.initial_status <$> machines !! name.
Proof. apply init_tables. Qed.

Lemma init_clients (machines : gmap string string) ui ra name :
  MachineMonitor._clients (MachineMonitor.init machines ui ra) !! name
  = BystronicClient.init <$> machines !! name.
Proof. apply init_tables. Qed.

Lemma start_monitoring_status (m : MachineMonitor.t) :
  MachineMonitor._status (MachineMonitor.start_monitoring m)
  = MachineMonitor._status m.
Proof. unfold MachineMonitor.start_monitoring. by destruct (MachineMonitor._monitoring m). Qed.


(** ** One pass of the monitor loop *)

(** The probe of [client.py] converts every failure into a status. *)
Lemma probe_returns (w : world) (c : BystronicClient.t) :
  exists s, BystronicClient.get_machine_status w c = Return s /\ status_ok s.
Proof.
  unfold BystronicClient.get_machine_status.
  destruct (BystronicClient.get_current_job w c) as [job|e]; run_binds; simpl;
    eexists; (split; [reflexivity|]); unfold status_ok; simpl.
  - intros [? [=]].
  - done.
Qed.

Lemma probe_job_failure (w : world) (c : BystronicClient.t) (e : exn) :
  work_current_job w = Raise e ->
  BystronicClient.get_machine_status w c
  = Return (MachineStatus.mk (BystronicClient.url c) false None None (Some (now w))
              (Some (Caused "Failed to get current job: " (str e)))).
Proof.
  intros H. unfold BystronicClient.get_machine_status, BystronicClient.get_current_job.
  rewrite H. reflexivity.
Qed.

Lemma cycle_polling (w : world) name (client : BystronicClient.t)
    (k : MachineMonitor.task) (s : MachineStatus.t) :
  BystronicClient._connected client = true ->
  BystronicClient.get_machine_status w client = Return s ->
  MachineMonitor.cycle w name client k
  = MachineMonitor.sleep (MachineMonitor.update_interval (MachineMonitor.self k))
      (MachineMonitor.publish name s k).
Proof.
  intros Hc Hs. unfold MachineMonitor.cycle, MachineMonitor.try_block.
  rewrite Hc. simpl. rewrite Hs. reflexivity.
Qed.

Lemma cycle_connect_ok (w : world) name (client : BystronicClient.t)
    (k : MachineMonitor.task) (s : MachineStatus.t) :
  let client' :=
    BystronicClient.set_connected true
      (BystronicClient.record_call called_connect client) in
  BystronicClient._connected client = false ->
  session_connect w = Return tt ->
  BystronicClient.get_machine_status w client' = Return s ->
  MachineMonitor.cycle w name client k
  = MachineMonitor.sleep (MachineMonitor.update_interval (MachineMonitor.self k))
      (MachineMonitor.publish name s
         (MachineMonitor.set_retry_count 0
            (MachineMonitor.with_client name client' k))).
Proof.
  intros client' Hc Hw Hs.
  unfold MachineMonitor.cycle, MachineMonitor.try_block, BystronicClient.connect.
  rewrite Hc, Hw. simpl. fold client'. rewrite Hs. reflexivity.
Qed.

Lemma cycle_connect_fails (w : world) name (client : BystronicClient.t)
    (k : MachineMonitor.task) (e : exn) :
  BystronicClient._connected client = false ->
  session_connect w = Raise e ->
  MachineMonitor.cycle w name client k
  = MachineMonitor.on_connection_error w client name
      (ConnectionError
         (Caused ("Failed to connect to " +:+ BystronicClient.url client +:+ ": ")
            (str e)))
      (MachineMonitor.with_client name
         (BystronicClient.record_call called_connect client) k).
Proof.
  intros Hc Hw.
  unfold MachineMonitor.cycle, MachineMonitor.try_block, BystronicClient.connect.
  rewrite Hc, Hw. reflexivity.
Qed.

Lemma replay_app evs evs' table :
  replay (evs ++ evs') table = replay evs' (replay evs table).
Proof. apply fold_left_app. Qed.

Lemma pass_effect_refl k k' :
  MachineMonitor.events k' = MachineMonitor.events k ->
  MachineMonitor._status (MachineMonitor.self k')
    = MachineMonitor._status (MachineMonitor.self k) ->
  MachineMonitor._monitoring (MachineMonitor.self k')
    = MachineMonitor._monitoring (MachineMonitor.self k) ->
  MachineMonitor.update_interval (MachineMonitor.self k')
    = MachineMonitor.update_interval (MachineMonitor.self k) ->
  MachineMonitor.retry_attempts (MachineMonitor.self k')
    = MachineMonitor.retry_attempts (MachineMonitor.self k) ->
  pass_effect k k'.
Proof.
  intros. apply (PassEffect k k' []); try done. by rewrite app_nil_r.
Qed.

Lemma pass_effect_trans k1 k2 k3 :
  pass_effect k1 k2 -> pass_effect k2 k3 -> pass_effect k1 k3.
Proof.
  intros [n1 E1 S1 O1 M1 I1 A1] [n2 E2 S2 O2 M2 I2 A2].
  apply (PassEffect k1 k3 (n1 ++ n2)).
  - by rewrite E2, E1, app_assoc.
  - by rewrite S2, S1, replay_app.
  - by apply Forall_app.
  - congruence.
  - congruence.
  - congruence.
Qed.

Lemma publish_effect name s k :
  status_ok s -> pass_effect k (MachineMonitor.publish name s k).
Proof.
  intros Hs. apply (PassEffect _ _ [Published name s]); try done.
  by repeat constructor.
Qed.

Lemma sleep_effect n k : pass_effect k (MachineMonitor.sleep n k).
Proof.
  apply (PassEffect _ _ [Slept n]); try done. by repeat constructor.
Qed.

Lemma set_retry_count_effect n k : pass_effect k (MachineMonitor.set_retry_count n k).
Proof. by apply pass_effect_refl. Qed.

Lemma with_client_effect name c k : pass_effect k (MachineMonitor.with_client name c k).
Proof. by apply pass_effect_refl. Qed.

Lemma failure_status_ok url t m : status_ok (MachineStatus.mk url false None None t m).
Proof. by intros _. Qed.

Lemma pass_effect_same k : pass_effect k k.
Proof. by apply pass_effect_refl. Qed.

Lemma sleep_after k0 n k :
  pass_effect k0 k -> pass_effect k0 (MachineMonitor.sleep n k).
Proof. intros H. exact (pass_effect_trans _ _ _ H (sleep_effect n k)). Qed.

Lemma publish_after k0 name s k :
  status_ok s -> pass_effect k0 k -> pass_effect k0 (MachineMonitor.publish name s k).
Proof. intros Hs H. exact (pass_effect_trans _ _ _ H (publish_effect name s k Hs)). Qed.

Lemma set_retry_count_after k0 n k :
  pass_effect k0 k -> pass_effect k0 (MachineMonitor.set_retry_count n k).
Proof. intros H. exact (pass_effect_trans _ _ _ H (set_retry_count_effect n k)). Qed.

Lemma with_client_after k0 name c k :
  pass_effect k0 k -> pass_effect k0 (MachineMonitor.with_client name c k).
Proof. intros H. exact (pass_effect_trans _ _ _ H (with_client_effect name c k)). Qed.

(** Peels the operations of a task off, the last one first. *)
Ltac pass_steps :=
  repeat first
    [ apply pass_effect_same
    | apply sleep_after
    | apply publish_after; [first [assumption | apply failure_status_ok] |]
    | apply set_retry_count_after
    | apply with_client_after ].

Lemma on_connection_error_effect w client name e k0 k :
  pass_effect k0 k ->
  pass_effect k0 (MachineMonitor.on_connection_error w client name e k).
Proof.
  intros H. unfold MachineMonitor.on_connection_error.
  case (_ <=? _); pass_steps; exact H.
Qed.

Lemma on_exception_effect w client name e k0 k :
  pass_effect k0 k ->
  pass_effect k0 (MachineMonitor.on_exception w client name e k).
Proof.
  intros H. unfold MachineMonitor.on_exception. pass_steps; exact H.
Qed.

Lemma cycle_effect w name client k :
  pass_effect k (MachineMonitor.cycle w name client k).
Proof.
  destruct (BystronicClient._connected client) eqn:Hc.
  - destruct (probe_returns w client) as (s & Hs & Hok).
    rewrite (cycle_polling w name client k s Hc Hs). pass_steps.
  - destruct (session_connect w) as [[]|e] eqn:Hw.
    + destruct (probe_returns w
                  (BystronicClient.set_connected true
                     (BystronicClient.record_call called_connect client)))
        as (s & Hs & Hok).
      rewrite (cycle_connect_ok w name client k s Hc Hw Hs). pass_steps.
    + rewrite (cycle_connect_fails w name client k e Hc Hw).
      apply on_connection_error_effect. pass_steps.
Qed.

(** ** Connection failures: bounded backoff, then the soft failure *)

Lemma failing_pass (m : MachineMonitor.t) name (client : BystronicClient.t)
    (w : world) (e : exn) (rc : Z) (evs : list event) :
  BystronicClient._connected client = false ->
  session_connect w = Raise e ->
  let client' := BystronicClient.record_call called_connect client in
  let m' := MachineMonitor.set_client name client' m in
  MachineMonitor.cycle w name client (MachineMonitor.mk_task m rc evs)
  = if rc + 1 <=? MachineMonitor.retry_attempts m then
      MachineMonitor.mk_task m' (rc + 1) (evs ++ [Slept (Z.min ((rc + 1) * 10) 60)])
    else
      MachineMonitor.mk_task
        (MachineMonitor.set_status name (connect_failure_status client w e) m') 0
        ((evs ++ [Published name (connect_failure_status client w e)])
           ++ [Slept (MachineMonitor.update_interval m)]).
Proof.
  intros Hc Hw client' m'. rewrite (cycle_connect_fails _ _ _ _ e Hc Hw).
  unfold MachineMonitor.on_connection_error. simpl.
  destruct (rc + 1 <=? MachineMonitor.retry_attempts m); reflexivity.
Qed.

Lemma loop_backoff (m : MachineMonitor.t) name (client : BystronicClient.t)
    (w : world) (e : exn) (rc : Z) (evs : list event) (ws : list world) :
  MachineMonitor._monitoring m = true ->
  MachineMonitor._clients m !! name = Some client ->
  BystronicClient._connected client = false ->
  session_connect w = Raise e ->
  rc + 1 <= MachineMonitor.retry_attempts m ->
  MachineMonitor.monitor_loop (w :: ws) name (MachineMonitor.mk_task m rc evs)
  = MachineMonitor.monitor_loop ws name
      (MachineMonitor.mk_task
         (MachineMonitor.set_client name
            (BystronicClient.record_call called_connect client) m)
         (rc + 1) (evs ++ [Slept (Z.min ((rc + 1) * 10) 60)])).
Proof.
  intros Hmon Hcl Hc Hw Hle. cbn [MachineMonitor.monitor_loop MachineMonitor.self].
  rewrite Hmon, Hcl, (failing_pass m name client w e rc evs Hc Hw).
  assert ((rc + 1 <=? MachineMonitor.retry_attempts m) = true) as -> by lia.
  reflexivity.
Qed.

Lemma loop_soft_fail (m : MachineMonitor.t) name (client : BystronicClient.t)
    (w : world) (e : exn) (rc : Z) (evs : list event) (ws : list world) :
  MachineMonitor._monitoring m = true ->
  MachineMonitor._clients m !! name = Some client ->
  BystronicClient._connected client = false ->
  session_connect w = Raise e ->
  rc + 1 > MachineMonitor.retry_attempts m ->
  MachineMonitor.monitor_loop (w :: ws) name (MachineMonitor.mk_task m rc evs)
  = MachineMonitor.monitor_loop ws name
      (MachineMonitor.mk_task
         (MachineMonitor.set_status name (connect_failure_status client w e)
            (MachineMonitor.set_client name
               (BystronicClient.record_call called_connect client) m))
         0
         (evs ++ [Published name (connect_failure_status client w e);
                  Slept (MachineMonitor.update_interval m)])).
Proof.
  intros Hmon Hcl Hc Hw Hgt. cbn [MachineMonitor.monitor_loop MachineMonitor.self].
  rewrite Hmon, Hcl, (failing_pass m name client w e rc evs Hc Hw).
  assert ((rc + 1 <=? MachineMonitor.retry_attempts m) = false) as -> by lia.
  by rewrite <- app_assoc.
Qed.

(** A client that is looked up right after it was stored. *)
Lemma set_client_lookup name c m :
  MachineMonitor._clients (MachineMonitor.set_client name c m) !! name = Some c.
Proof. apply lookup_insert_eq. Qed.

(** C3. With [retry_attempts = 3], a pass whose connect fails waits
    [min(retry_count * 10, 60)] seconds as long as the incremented count is
    at most 3, and publishes nothing. The pass that takes the count above 3
    publishes a status with [is_connected] false and the text of the error,
    waits [update_interval] and resets the count to 0. In both cases the
    client stays disconnected, so the next pass calls [connect] again.
    Hence four failures in a row, from a fresh task, wait 10, 20 and 30
    seconds, then publish and wait [update_interval]. *)
Theorem backoff_then_soft_fail (m : MachineMonitor.t) (name : string)
    (client : BystronicClient.t) :
  MachineMonitor.retry_attempts m = 3 ->
  MachineMonitor._monitoring m = true ->
  MachineMonitor._clients m !! name = Some client ->
  BystronicClient._connected client = false ->
  (forall w e rc evs,
     session_connect w = Raise e ->
     let k' := MachineMonitor.cycle w name client (MachineMonitor.mk_task m rc evs) in
     (rc + 1 <= 3 ->
        MachineMonitor.events k' = evs ++ [Slept (Z.min ((rc + 1) * 10) 60)]
        /\ MachineMonitor.retry_count k' = rc + 1
        /\ MachineMonitor._status (MachineMonitor.self k') = MachineMonitor._status m)
     /\ (rc + 1 > 3 ->
        MachineMonitor.events k'
          = evs ++ [Published name (connect_failure_status client w e);
                    Slept (MachineMonitor.update_interval m)]
        /\ MachineMonitor.retry_count k' = 0
        /\ MachineMonitor.get_machine_status (MachineMonitor.self k') name
           = Some (connect_failure_status client w e))
     /\ exists client',
          MachineMonitor._clients (MachineMonitor.self k') !! name = Some client'
          /\ BystronicClient._connected client' = false)
  /\ (forall w1 w2 w3 w4 e1 e2 e3 e4,
        session_connect w1 = Raise e1 -> session_connect w2 = Raise e2 ->
        session_connect w3 = Raise e3 -> session_connect w4 = Raise e4 ->
        let k := MachineMonitor._monitor_machine [w1; w2; w3; w4] name m in
        MachineMonitor.events k
          = [Slept 10; Slept 20; Slept 30;
             Published name (connect_failure_status client w4 e4);
             Slept (MachineMonitor.update_interval m)]
        /\ MachineMonitor.retry_count k = 0
        /\ MachineMonitor.get_machine_status (MachineMonitor.self k) name
           = Some (connect_failure_status client w4 e4)
        /\ exists client',
             MachineMonitor._clients (MachineMonitor.self k) !! name = Some client'
             /\ BystronicClient._connected client' = false).
Proof.
  intros Hra Hmon Hcl Hc. split.
  - intros w e rc evs Hw k'. subst k'.
    rewrite (failing_pass m name client w e rc evs Hc Hw), Hra.
    split; [|split].
    + intros Hle. assert ((rc + 1 <=? 3) = true) as -> by lia. done.
    + intros Hgt. assert ((rc + 1 <=? 3) = false) as -> by lia.
      unfold MachineMonitor.get_machine_status. simpl.
      rewrite lookup_insert_eq, <- app_assoc. done.
    + exists (BystronicClient.record_call called_connect client).
      destruct (rc + 1 <=? 3); simpl; by rewrite lookup_insert_eq.
  - intros w1 w2 w3 w4 e1 e2 e3 e4 H1 H2 H3 H4 k. subst k.
    unfold MachineMonitor._monitor_machine.
    rewrite (loop_backoff m name client w1 e1) by (done || lia).
    rewrite (loop_backoff _ name _ w2 e2)
      by first [apply set_client_lookup | done | simpl; lia].
    rewrite (loop_backoff _ name _ w3 e3)
      by first [apply set_client_lookup | done | simpl; lia].
    rewrite (loop_soft_fail _ name _ w4 e4)
      by first [apply set_client_lookup | done | simpl; lia].
    cbn [MachineMonitor.monitor_loop MachineMonitor.events
         MachineMonitor.retry_count MachineMonitor.self].
    unfold MachineMonitor.get_machine_status.
    split; [reflexivity | split; [reflexivity | split]].
    + simpl. by rewrite lookup_insert_eq.
    + eexists. split; [apply set_client_lookup | done].
Qed.

Lemma backoff_then_soft_fail_witness :
  MachineMonitor.retry_attempts Sample.monitor = 3
  /\ MachineMonitor._monitoring Sample.monitor = true
  /\ MachineMonitor._clients Sample.monitor !! "laser1" = Some Sample.fresh_client
  /\ BystronicClient._connected Sample.fresh_client = false
  /\ MachineMonitor.events
       (MachineMonitor._monitor_machine
          [Sample.unreachable 1; Sample.unreachable 11; Sample.unreachable 31;
           Sample.unreachable 61] "laser1" Sample.monitor)
     = [Slept 10; Slept 20; Slept 30;
        Published "laser1"
          (connect_failure_status Sample.fresh_client (Sample.unreachable 61)
             Sample.refused);
        Slept 30].
Proof.
  assert (H1 : MachineMonitor.retry_attempts Sample.monitor = 3) by reflexivity.
  assert (H2 : MachineMonitor._monitoring Sample.monitor = true) by reflexivity.
  assert (H3 : MachineMonitor._clients Sample.monitor !! "laser1"
               = Some Sample.fresh_client) by (vm_compute; reflexivity).
  assert (H4 : BystronicClient._connected Sample.fresh_client = false) by reflexivity.
  repeat (split; [assumption|]).
  destruct (backoff_then_soft_fail Sample.monitor "laser1" Sample.fresh_client
              H1 H2 H3 H4) as [_ Hrun].
  exact (proj1 (Hrun (Sample.unreachable 1) (Sample.unreachable 11)
                  (Sample.unreachable 31) (Sample.unreachable 61)
                  Sample.refused Sample.refused Sample.refused Sample.refused
                  eq_refl eq_refl eq_refl eq_refl)).
Defined.

(** ** A failing probe in the polling state *)



(** X25. The probe of [BystronicClient] never raises: whatever fails
    inside it comes back as a status. For a connected client whose
    current-job read fails, with an error of any class, that status has
    [is_connected] false and the text of the error; the pass publishes it,
    waits [update_interval], and leaves the retry count and the client
    alone. A link lost while polling is therefore not retried with
    backoff. *)
Theorem probe_failure_published_not_retried (w : world) (name : string)
    (client : BystronicClient.t) (k : MachineMonitor.task) (e : exn) :
  BystronicClient._connected client = true ->
  work_current_job w = Raise e ->
  let failed :=
    MachineStatus.mk (BystronicClient.url client) false None None (Some (now w))
      (Some (Caused "Failed to get current job: " (str e))) in
  let k' := MachineMonitor.cycle w name client k in
  (forall w' c', exists s, BystronicClient.get_machine_status w' c' = Return s)
  /\ BystronicClient.get_machine_status w client = Return failed
  /\ MachineMonitor.events k'
     = MachineMonitor.events k
         ++ [Published name failed;
             Slept (MachineMonitor.update_interval (MachineMonitor.self k))]
  /\ MachineMonitor.retry_count k' = MachineMonitor.retry_count k
  /\ MachineMonitor._clients (MachineMonitor.self k')
     = MachineMonitor._clients (MachineMonitor.self k).
Proof.
  intros Hc Hw failed k'. subst k'.
  pose proof (probe_job_failure w client e Hw) as Hs. fold failed in Hs.
  rewrite (cycle_polling w name client k failed Hc Hs).
  split; [|split; [exact Hs|]].
  - intros w' c'. destruct (probe_returns w' c') as (s & Hs' & _). eauto.
  - simpl. by rewrite <- app_assoc.
Qed.

Lemma probe_failure_published_not_retried_witness :
  BystronicClient._connected Sample.connected_client = true
  /\ work_current_job Sample.link_lost = Raise (Foreign (SessionError "Connection lost"))
  /\ MachineMonitor.retry_count
       (MachineMonitor.cycle Sample.link_lost "laser1" Sample.connected_client
          (MachineMonitor.mk_task Sample.monitor 2 []))
     = 2.
Proof.
  split; [reflexivity | split; [reflexivity|]].
  exact (proj1 (proj2 (proj2 (proj2
           (probe_failure_published_not_retried Sample.link_lost "laser1"
              Sample.connected_client (MachineMonitor.mk_task Sample.monitor 2 [])
              (Foreign (SessionError "Connection lost")) eq_refl eq_refl))))).
Defined.

(** ** The fleet: what the status table can hold *)

Lemma replay_ok (evs : list event) : forall (table : gmap string MachineStatus.t),
  (forall name s, table !! name = Some s -> status_ok s) ->
  Forall event_ok evs ->
  forall name s, replay evs table !! name = Some s -> status_ok s.
Proof.
  induction evs as [|ev evs IH]; intros table Htable Hevs name s; [apply Htable|].
  apply Forall_cons in Hevs as [Hev Hevs]. apply (IH (apply_event table ev)); [|done].
  intros n' s'. destruct ev as [n0 s0|]; simpl; [|apply Htable].
  destruct (decide (n0 = n')) as [->|Hne].
  - rewrite lookup_insert_eq. by intros [= <-].
  - rewrite lookup_insert_ne by done. apply Htable.
Qed.

Lemma replay_untouched (name : string) (evs : list event) :
  forall (table : gmap string MachineStatus.t),
  Forall (fun e => ~ publishes name e) evs ->
  replay evs table !! name = table !! name.
Proof.
  induction evs as [|ev evs IH]; intros table Hevs; [done|].
  apply Forall_cons in Hevs as [Hev Hevs]. simpl. rewrite IH by done.
  destruct ev as [n0 s0|]; simpl; [|done].
  apply lookup_insert_ne. intros ->. apply Hev. by exists s0.
Qed.

Lemma fleet_pass_effect name w fl :
  pass_effect (task_of fl) (task_of (MachineMonitor.fleet_pass name w fl)).
Proof.
  unfold MachineMonitor.fleet_pass.
  destruct (MachineMonitor._monitoring (MachineMonitor.monitor fl));
    [|apply pass_effect_same].
  destruct (MachineMonitor._clients (MachineMonitor.monitor fl) !! name)
    as [client|]; [|apply pass_effect_same].
  destruct (cycle_effect w name client
              (MachineMonitor.mk_task (MachineMonitor.monitor fl)
                 (default 0 (MachineMonitor.retry_counts fl !! name))
                 (MachineMonitor.history fl)))
    as [new E S O M I A].
  by apply (PassEffect _ _ new).
Qed.

Lemma fleet_run_effect schedule : forall fl,
  pass_effect (task_of fl)
    (task_of (fold_left (fun fl p => MachineMonitor.fleet_pass p.1 p.2 fl) schedule fl)).
Proof.
  induction schedule as [|[name w] schedule IH]; intros fl; [apply pass_effect_same|].
  simpl. eapply pass_effect_trans; [apply fleet_pass_effect | apply IH].
Qed.

(** The status table of a fleet is its initial table with the
    publications of the history replayed, and each of them is in order. *)
Lemma run_fleet_history schedule m :
  let fl := MachineMonitor.run_fleet schedule m in
  MachineMonitor._status (MachineMonitor.monitor fl)
    = replay (MachineMonitor.history fl) (MachineMonitor._status m)
  /\ Forall event_ok (MachineMonitor.history fl).
Proof.
  destruct (fleet_run_effect schedule (MachineMonitor.mk_fleet m ∅ []))
    as [new E S O _ _ _].
  simpl in E, S. unfold MachineMonitor.run_fleet. simpl. rewrite E. done.
Qed.

Lemma initial_table_ok machines ui ra name s :
  MachineMonitor._status
    (MachineMonitor.start_monitoring (MachineMonitor.init machines ui ra)) !! name
    = Some s ->
  status_ok s.
Proof.
  rewrite start_monitoring_status, init_status.
  destruct (machines !! name); intros [= <-]. intros [? [=]].
Qed.

(** C9. Whatever the session answers and however the passes of the tasks
    interleave, every status in the table, and every status that was ever
    published into it, has [is_connected] false whenever it carries an
    [error_message]. The empty schedule gives the entries of [__init__]. *)
Theorem error_message_only_when_disconnected (machines : gmap string string)
    (update_interval retry_attempts : Z) (schedule : list (string * world)) :
  let fl :=
    MachineMonitor.run_fleet schedule
      (MachineMonitor.start_monitoring
         (MachineMonitor.init machines update_interval retry_attempts)) in
  (forall name s,
     MachineMonitor.get_machine_status (MachineMonitor.monitor fl) name = Some s ->
     is_Some (MachineStatus.error_message s) -> MachineStatus.is_connected s = false)
  /\ (forall name s,
        Published name s ∈ MachineMonitor.history fl ->
        is_Some (MachineStatus.error_message s) -> MachineStatus.is_connected s = false).
Proof.
  intros fl. subst fl.
  destruct (run_fleet_history schedule
              (MachineMonitor.start_monitoring
                 (MachineMonitor.init machines update_interval retry_attempts)))
    as [Htable Hok].
  split.
  - intros name s. unfold MachineMonitor.get_machine_status. rewrite Htable.
    apply replay_ok; [|done]. intros n' s'. apply initial_table_ok.
  - intros name s Hin. rewrite Forall_forall in Hok. exact (Hok _ Hin).
Qed.

(** C4, as the code has it. As long as no status was published for a
    configured machine, its status is present and is the entry written by
    [__init__]: the configured URL, [is_connected] false, every optional
    field empty. The status is absent only for a name that was not
    configured. *)
Theorem status_before_first_publish (machines : gmap string string)
    (update_interval retry_attempts : Z) (schedule : list (string * world))
    (name : string) :
  let fl :=
    MachineMonitor.run_fleet schedule
      (MachineMonitor.start_monitoring
         (MachineMonitor.init machines update_interval retry_attempts)) in
  Forall (fun e => ~ publishes name e) (MachineMonitor.history fl) ->
  MachineMonitor.get_machine_status (MachineMonitor.monitor fl) name
  = (fun url => MachineStatus.mk url false None None None None) <$> machines !! name.
Proof.
  intros fl Hnone. subst fl.
  destruct (run_fleet_history schedule
              (MachineMonitor.start_monitoring
                 (MachineMonitor.init machines update_interval retry_attempts)))
    as [Htable _].
  unfold MachineMonitor.get_machine_status. rewrite Htable.
  rewrite replay_untouched by done.
  rewrite start_monitoring_status. apply init_status.
Qed.

(** C4, as stated, fails: a configured machine has a status before
    anything was published. *)
Lemma configured_machine_has_status : ~ absent_before_first_publish.
Proof.
  intros H.
  specialize (H Sample.one_machine 30 3 "laser1"%string Sample.machine_url eq_refl).
  unfold MachineMonitor.get_machine_status in H.
  rewrite start_monitoring_status, init_status in H. discriminate H.
Qed.

Lemma error_message_only_when_disconnected_witness :
  MachineMonitor.get_machine_status
    (MachineMonitor.monitor
       (MachineMonitor.run_fleet Sample.retries_used_up
          (MachineMonitor.start_monitoring
             (MachineMonitor.init Sample.one_machine 30 3)))) "laser1"
  = Some Sample.soft_failed
  /\ is_Some (MachineStatus.error_message Sample.soft_failed)
  /\ MachineStatus.is_connected Sample.soft_failed = false.
Proof.
  set (st := Sample.soft_failed).
  assert (H1 : MachineMonitor.get_machine_status
                 (MachineMonitor.monitor
                    (MachineMonitor.run_fleet Sample.retries_used_up
                       (MachineMonitor.start_monitoring
                          (MachineMonitor.init Sample.one_machine 30 3)))) "laser1"
               = Some st) by (vm_compute; reflexivity).
  assert (H2 : is_Some (MachineStatus.error_message st)) by (eexists; reflexivity).
  split; [exact H1 | split; [exact H2 |]].
  exact (proj1 (error_message_only_when_disconnected Sample.one_machine 30 3
                  Sample.retries_used_up) "laser1"%string st H1 H2).
Defined.

Lemma status_before_first_publish_witness :
  Forall (fun e => ~ publishes "laser1" e)
    (MachineMonitor.history
       (MachineMonitor.run_fleet Sample.first_backoff
          (MachineMonitor.start_monitoring
             (MachineMonitor.init Sample.one_machine 30 3))))
  /\ MachineMonitor.get_machine_status
       (MachineMonitor.monitor
          (MachineMonitor.run_fleet Sample.first_backoff
             (MachineMonitor.start_monitoring
                (MachineMonitor.init Sample.one_machine 30 3)))) "laser1"
     = Some (MachineStatus.mk Sample.machine_url false None None None None).
Proof.
  assert (H : Forall (fun e => ~ publishes "laser1" e)
                (MachineMonitor.history
                   (MachineMonitor.run_fleet Sample.first_backoff
                      (MachineMonitor.start_monitoring
                         (MachineMonitor.init Sample.one_machine 30 3))))).
  { assert (MachineMonitor.history
              (MachineMonitor.run_fleet Sample.first_backoff
                 (MachineMonitor.start_monitoring
                    (MachineMonitor.init Sample.one_machine 30 3)))
            = [Slept 10]) as -> by (vm_compute; reflexivity).
    constructor; [|constructor]. intros [s Hs]. discriminate Hs. }
  split; [exact H|].
  exact (status_before_first_publish Sample.one_machine 30 3 Sample.first_backoff
           "laser1"%string H).
Defined.

(** ** Hexadecimal text *)

Lemma str_app_nil (b : string) : "" +:+ b = b.
Proof. reflexivity. Qed.

Lemma str_app_cons c (a b : string) : String c a +:+ b = String c (a +:+ b).
Proof. reflexivity. Qed.

Ltac str_simpl := rewrite ?str_app_cons, ?str_app_nil; simpl.

Lemma str_length_app (a b : string) :
  String.length (a +:+ b) = (String.length a + String.length b)%nat.
Proof. induction a as [|c a IH]; str_simpl; [done | by rewrite IH]. Qed.

Lemma str_app_assoc (a b c : string) : (a +:+ b) +:+ c = a +:+ (b +:+ c).
Proof. induction a as [|x a IH]; str_simpl; [done | by rewrite IH]. Qed.

Lemma hexdigit_hexval n : 0 <= n < 16 -> hexval (hexdigit n) = Some n.
Proof.
  intros H. rewrite <- (Z2Nat.id n) by lia.
  assert (Hk : (Z.to_nat n < 16)%nat) by lia.
  generalize dependent (Z.to_nat n). clear H. intros k Hk.
  do 16 (destruct k as [|k]; [reflexivity|]). lia.
Qed.

Lemma hexval_not_hyphen c : is_Some (hexval c) -> Ascii.eqb c "-" = false.
Proof.
  intros [d H]. destruct (Ascii.eqb c "-") eqn:E; [|done].
  apply Ascii.eqb_eq in E. subst c. discriminate H.
Qed.

Lemma all_hex_app a b : all_hex a -> all_hex b -> all_hex (a +:+ b).
Proof. induction a as [|c a IH]; str_simpl; [done|]. intros [? ?] ?. auto. Qed.

Lemma all_hex_zeros n : all_hex (zeros n).
Proof. induction n; simpl; [done|]. split; [by eexists | done]. Qed.

Lemma hi_nibble b : 0 <= byte_val b / 16 < 16.
Proof. pose proof (byte_val_range b). Z.div_mod_to_equations. lia. Qed.

Lemma lo_nibble b : 0 <= byte_val b mod 16 < 16.
Proof. pose proof (byte_val_range b). Z.div_mod_to_equations. lia. Qed.

Lemma all_hex_hex bs : all_hex (hex bs).
Proof.
  induction bs as [|b r IH]; simpl; [done|].
  rewrite (hexdigit_hexval _ (hi_nibble b)), (hexdigit_hexval _ (lo_nibble b)).
  eauto.
Qed.

Lemma all_hex_to_hex f : forall x, 0 <= x -> all_hex (to_hex f x).
Proof.
  induction f as [|f IH]; intros x Hx; simpl; [done|].
  destruct (x <? 16) eqn:E.
  - simpl. split; [|done]. rewrite hexdigit_hexval; [eauto | lia].
  - apply all_hex_app; [apply IH; Z.div_mod_to_equations; lia|].
    simpl. split; [|done].
    rewrite hexdigit_hexval; [eauto | Z.div_mod_to_equations; lia].
Qed.

Lemma all_hex_format_x w x : 0 <= x -> all_hex (format_x w x).
Proof.
  intros. unfold format_x. apply all_hex_app; [apply all_hex_zeros|].
  by apply all_hex_to_hex.
Qed.

Lemma all_hex_str_take n : forall s, all_hex s -> all_hex (str_take n s).
Proof.
  induction n as [|n IH]; intros [|c s]; simpl; try done. intros [? ?]. auto.
Qed.

Lemma all_hex_str_drop n : forall s, all_hex s -> all_hex (str_drop n s).
Proof.
  induction n as [|n IH]; intros [|c s]; simpl; try done. intros [? ?]. auto.
Qed.

Lemma drop_hyphens_hex a : all_hex a -> drop_hyphens a = a.
Proof.
  induction a as [|c a IH]; str_simpl; [done|]. intros [Hc Ha].
  by rewrite (hexval_not_hyphen c Hc), IH.
Qed.

Lemma drop_hyphens_group a rest :
  all_hex a -> drop_hyphens (a +:+ String "-" rest) = a +:+ drop_hyphens rest.
Proof.
  induction a as [|c a IH]; str_simpl; [done|]. intros [Hc Ha].
  by rewrite (hexval_not_hyphen c Hc), IH.
Qed.

Lemma split_hex a : all_hex a -> split "-" a = [a].
Proof.
  induction a as [|c a IH]; str_simpl; [done|]. intros [Hc Ha].
  by rewrite (hexval_not_hyphen c Hc), IH.
Qed.

Lemma split_group a rest :
  all_hex a -> split "-" (a +:+ String "-" rest) = a :: split "-" rest.
Proof.
  induction a as [|c a IH]; str_simpl; [done|]. intros [Hc Ha].
  by rewrite (hexval_not_hyphen c Hc), IH.
Qed.

Lemma int16_app a : forall acc b,
  int16 acc (a +:+ b) = int16 acc a ≫= fun v => int16 v b.
Proof.
  induction a as [|c a IH]; intros acc b; str_simpl; [done|].
  destruct (hexval c); [apply IH | done].
Qed.

Lemma int16_zeros n : forall acc, int16 acc (zeros n) = Some (acc * 16 ^ Z.of_nat n).
Proof.
  induction n as [|n IH]; intros acc.
  - simpl. f_equal. lia.
  - cbn [zeros int16]. change (hexval "0") with (Some 0). cbv beta iota.
    rewrite IH. f_equal.
    rewrite Nat2Z.inj_succ, Z.pow_succ_r by lia. lia.
Qed.

Lemma int16_to_hex f : forall x acc,
  0 <= x < 16 ^ Z.of_nat f ->
  int16 acc (to_hex f x)
  = Some (acc * 16 ^ Z.of_nat (String.length (to_hex f x)) + x).
Proof.
  induction f as [|f IH]; intros x acc Hx.
  - simpl in *. f_equal. lia.
  - rewrite Nat2Z.inj_succ, Z.pow_succ_r in Hx by lia.
    cbn [to_hex]. destruct (x <? 16) eqn:E.
    + cbn [int16 String.length]. rewrite hexdigit_hexval by lia. f_equal. lia.
    + rewrite int16_app, IH by (Z.div_mod_to_equations; lia).
      cbn [mbind option_bind int16].
      rewrite hexdigit_hexval by (Z.div_mod_to_equations; lia).
      f_equal. rewrite str_length_app. cbn [String.length].
      rewrite Nat2Z.inj_add, Z.pow_add_r by lia.
      change (16 ^ Z.of_nat 1) with 16.
      set (p := 16 ^ Z.of_nat (String.length (to_hex f (x / 16)))).
      Z.div_mod_to_equations. lia.
Qed.

Lemma to_hex_length f : forall x (w : nat),
  0 <= x < 16 ^ Z.of_nat w -> (1 <= w)%nat ->
  (String.length (to_hex f x) <= w)%nat.
Proof.
  induction f as [|f IH]; intros x w Hx Hw; simpl; [lia|].
  destruct (x <? 16) eqn:E; [simpl; lia|].
  rewrite str_length_app. simpl.
  destruct w as [|w]; [lia|].
  rewrite Nat2Z.inj_succ, Z.pow_succ_r in Hx by lia.
  assert (1 <= w)%nat.
  { destruct w; [|lia]. simpl in Hx. lia. }
  assert (0 <= x / 16 < 16 ^ Z.of_nat w)
    by (set (p := 16 ^ Z.of_nat w) in *; Z.div_mod_to_equations; lia).
  specialize (IH (x / 16) w). lia.
Qed.

Lemma fuel_enough x : 0 <= x -> x < 16 ^ Z.of_nat (S (Z.to_nat (Z.log2 x))).
Proof.
  intros Hx. rewrite Nat2Z.inj_succ, Z2Nat.id by apply Z.log2_nonneg.
  destruct (Z.eq_dec x 0) as [->|Hne]; [done|].
  pose proof (Z.log2_spec x ltac:(lia)) as [_ Hlt].
  eapply Z.lt_le_trans; [exact Hlt|].
  pose proof (Z.log2_nonneg x).
  change 16 with (2 ^ 4). rewrite <- Z.pow_mul_r by lia.
  apply Z.pow_le_mono_r; lia.
Qed.

(** A number below [16 ^ width] is written with exactly [width] digits, and
    reading them back gives the number. *)
Lemma format_x_length (w : nat) x :
  0 <= x < 16 ^ Z.of_nat w -> (1 <= w)%nat -> String.length (format_x w x) = w.
Proof.
  intros Hx Hw. unfold format_x. rewrite str_length_app.
  pose proof (to_hex_length (S (Z.to_nat (Z.log2 x))) x w Hx Hw).
  assert (L : forall n, String.length (zeros n) = n)
    by (induction n; simpl; congruence).
  rewrite L. lia.
Qed.

Lemma int16_format_x (w : nat) x acc :
  0 <= x < 16 ^ Z.of_nat w -> (1 <= w)%nat ->
  int16 acc (format_x w x) = Some (acc * 16 ^ Z.of_nat w + x).
Proof.
  intros Hx Hw. unfold format_x.
  pose proof (to_hex_length (S (Z.to_nat (Z.log2 x))) x w Hx Hw) as Hlen.
  rewrite int16_app, int16_zeros. cbn [mbind option_bind].
  rewrite int16_to_hex by (split; [lia | apply fuel_enough; lia]).
  f_equal. set (len := String.length _) in *.
  rewrite <- Z.mul_assoc, <- Z.pow_add_r by lia.
  do 3 f_equal. lia.
Qed.

Lemma int16_hex bs : forall acc,
  int16 acc (hex bs) = Some (fold_left (fun a b => 256 * a + byte_val b) bs acc).
Proof.
  induction bs as [|b r IH]; intros acc; [done|].
  cbn [hex int16 fold_left].
  rewrite (hexdigit_hexval _ (hi_nibble b)), (hexdigit_hexval _ (lo_nibble b)).
  rewrite IH. do 2 f_equal. Z.div_mod_to_equations. lia.
Qed.

Lemma hex_length bs : String.length (hex bs) = (2 * length bs)%nat.
Proof. induction bs as [|b r IH]; simpl; [done|]. rewrite IH. lia. Qed.

Lemma hex_take bs : str_take 4 (hex bs) = hex (take 2 bs).
Proof. by destruct bs as [|a [|b r]]. Qed.

Lemma hex_drop bs : str_drop 4 (hex bs) = hex (drop 2 bs).
Proof. by destruct bs as [|a [|b r]]. Qed.

Lemma be_from bs : forall acc,
  fold_left (fun a b => 256 * a + byte_val b) bs acc
  = acc * 256 ^ Z.of_nat (length bs) + be_uint bs.
Proof.
  unfold be_uint.
  induction bs as [|b r IH]; intros acc; [simpl; lia|].
  cbn [fold_left length]. rewrite IH, (IH (256 * 0 + byte_val b)).
  rewrite Nat2Z.inj_succ, Z.pow_succ_r by lia. lia.
Qed.

(** ** The identifier of a 16-byte region *)

Lemma le_uint_range bs : 0 <= le_uint bs < 256 ^ Z.of_nat (length bs).
Proof.
  induction bs as [|b r IH]; [simpl; lia|].
  cbn [le_uint length]. rewrite Nat2Z.inj_succ, Z.pow_succ_r by lia.
  pose proof (byte_val_range b). lia.
Qed.

Lemma be_uint_range bs : 0 <= be_uint bs < 256 ^ Z.of_nat (length bs).
Proof.
  induction bs as [|b r IH]; [unfold be_uint; simpl; lia|].
  unfold be_uint. cbn [fold_left length]. rewrite be_from.
  rewrite Nat2Z.inj_succ, Z.pow_succ_r by lia.
  pose proof (byte_val_range b). nia.
Qed.

Lemma unpacked_ranges region :
  length region = 16%nat ->
  0 <= le_uint (take 4 region) < 16 ^ 8
  /\ 0 <= le_uint (take 2 (drop 4 region)) < 16 ^ 4
  /\ 0 <= le_uint (take 2 (drop 6 region)) < 16 ^ 4
  /\ length (drop 8 region) = 8%nat.
Proof.
  intros H.
  pose proof (le_uint_range (take 4 region)) as H0.
  pose proof (le_uint_range (take 2 (drop 4 region))) as H1.
  pose proof (le_uint_range (take 2 (drop 6 region))) as H2.
  rewrite length_take, H in H0.
  rewrite length_take, length_drop, H in H1.
  rewrite length_take, length_drop, H in H2.
  rewrite length_drop, H.
  change (256 ^ Z.of_nat (4 `min` 16)) with (16 ^ 8) in H0.
  change (256 ^ Z.of_nat (2 `min` (16 - 4))) with (16 ^ 4) in H1.
  change (256 ^ Z.of_nat (2 `min` (16 - 6))) with (16 ^ 4) in H2.
  done.
Qed.

(** The text of a GUID is five groups of hexadecimal digits, of widths
    8, 4, 4, 4 and 12; the last two are the digits of the first two raw
    bytes and of the other six. *)
Lemma guid_str_groups p0 p1 p2 (raw : list byte) :
  0 <= p0 < 16 ^ 8 -> 0 <= p1 < 16 ^ 4 -> 0 <= p2 < 16 ^ 4 ->
  length raw = 8%nat ->
  split "-" (guid_str (p0, p1, p2, raw))
  = [format_x 8 p0; format_x 4 p1; format_x 4 p2; hex (take 2 raw); hex (drop 2 raw)]
  /\ String.length (format_x 8 p0) = 8%nat
  /\ String.length (format_x 4 p1) = 4%nat
  /\ String.length (format_x 4 p2) = 4%nat
  /\ String.length (hex (take 2 raw)) = 4%nat
  /\ String.length (hex (drop 2 raw)) = 12%nat
  /\ int16 0 (format_x 8 p0) = Some p0
  /\ int16 0 (format_x 4 p1) = Some p1
  /\ int16 0 (format_x 4 p2) = Some p2.
Proof.
  intros H0 H1 H2 Hraw. unfold guid_str. rewrite hex_take, hex_drop.
  rewrite !str_app_cons, !str_app_nil.
  rewrite !split_group by (apply all_hex_format_x || apply all_hex_hex; lia).
  rewrite split_hex by apply all_hex_hex.
  rewrite !format_x_length by (done || lia).
  rewrite !hex_length, length_take, length_drop, Hraw.
  rewrite !int16_format_x by (done || lia).
  repeat split; f_equal; lia.
Qed.

Lemma UUID_guid_str p0 p1 p2 (raw : list byte) :
  0 <= p0 < 16 ^ 8 -> 0 <= p1 < 16 ^ 4 -> 0 <= p2 < 16 ^ 4 ->
  length raw = 8%nat ->
  UUID (guid_str (p0, p1, p2, raw)) = Return (guid_int (p0, p1, p2, raw)).
Proof.
  intros H0 H1 H2 Hraw. unfold UUID, guid_str, guid_int.
  rewrite hex_take, hex_drop.
  rewrite !str_app_cons, !str_app_nil.
  rewrite !drop_hyphens_group by (apply all_hex_format_x || apply all_hex_hex; lia).
  rewrite drop_hyphens_hex by apply all_hex_hex.
  rewrite !str_length_app, !format_x_length by (done || lia).
  rewrite !hex_length, length_take, length_drop, Hraw.
  rewrite decide_True by done.
  rewrite int16_app, (int16_format_x 8) by (done || lia).
  cbn [mbind option_bind].
  rewrite int16_app, (int16_format_x 4) by (done || lia).
  cbn [mbind option_bind].
  rewrite int16_app, (int16_format_x 4) by (done || lia).
  cbn [mbind option_bind].
  rewrite int16_app, int16_hex. cbn [mbind option_bind]. rewrite int16_hex.
  rewrite !be_from, length_take, length_drop, Hraw.
  f_equal; lia.
Qed.

Lemma guid_of_region region :
  length region = 16%nat ->
  guid_of region
  = Return (guid_int (le_uint (take 4 region), le_uint (take 2 (drop 4 region)),
                      le_uint (take 2 (drop 6 region)), drop 8 region)).
Proof.
  intros H. unfold guid_of. rewrite unpack_IHH8s_ok by done.
  destruct (unpacked_ranges region H) as (H0 & H1 & H2 & H3).
  cbn [mbind outcome_bind]. by apply UUID_guid_str.
Qed.

Lemma le_uint_inj a : forall b,
  length a = length b -> le_uint a = le_uint b -> a = b.
Proof.
  induction a as [|x a IH]; intros [|y b] Hlen H; try done.
  simpl in Hlen. cbn [le_uint] in H.
  pose proof (byte_val_range x). pose proof (byte_val_range y).
  assert (byte_val x = byte_val y /\ le_uint a = le_uint b) as [Hx Hr] by lia.
  f_equal; [by apply byte_val_inj | apply IH; [lia | done]].
Qed.

Lemma le_uint_app a b :
  le_uint (a ++ b) = le_uint a + 256 ^ Z.of_nat (length a) * le_uint b.
Proof.
  induction a as [|x a IH]; [simpl; lia|].
  cbn [app le_uint length]. rewrite IH, Nat2Z.inj_succ, Z.pow_succ_r by lia. lia.
Qed.

Lemma be_uint_rev bs : be_uint bs = le_uint (rev bs).
Proof.
  induction bs as [|b r IH]; [done|].
  unfold be_uint. cbn [fold_left rev]. rewrite be_from, le_uint_app, length_rev, IH.
  cbn [le_uint]. lia.
Qed.

Lemma be_uint_inj a b : length a = length b -> be_uint a = be_uint b -> a = b.
Proof.
  rewrite !be_uint_rev. intros Hlen H.
  rewrite <- (rev_involutive a), <- (rev_involutive b). f_equal.
  apply le_uint_inj; [by rewrite !length_rev | done].
Qed.

(** Two 16-byte regions with the same identifier are the same bytes. *)
Lemma guid_of_inj r r' :
  length r = 16%nat -> length r' = 16%nat -> guid_of r = guid_of r' -> r = r'.
Proof.
  intros Hr Hr'. rewrite !guid_of_region by done. intros [= H].
  destruct (unpacked_ranges r Hr) as (A0 & A1 & A2 & A3).
  destruct (unpacked_ranges r' Hr') as (B0 & B1 & B2 & B3).
  pose proof (be_uint_range (take 2 (drop 8 r))) as A4.
  pose proof (be_uint_range (drop 2 (drop 8 r))) as A5.
  pose proof (be_uint_range (take 2 (drop 8 r'))) as B4.
  pose proof (be_uint_range (drop 2 (drop 8 r'))) as B5.
  rewrite length_take, length_drop, Hr in A4. rewrite !length_drop, Hr in A5.
  rewrite length_take, length_drop, Hr' in B4. rewrite !length_drop, Hr' in B5.
  change (256 ^ Z.of_nat (2 `min` (16 - 8))) with (16 ^ 4) in A4, B4.
  change (256 ^ Z.of_nat (16 - 8 - 2)) with (16 ^ 12) in A5, B5.
  assert (E : le_uint (take 4 r) = le_uint (take 4 r')
              /\ le_uint (take 2 (drop 4 r)) = le_uint (take 2 (drop 4 r'))
              /\ le_uint (take 2 (drop 6 r)) = le_uint (take 2 (drop 6 r'))
              /\ be_uint (take 2 (drop 8 r)) = be_uint (take 2 (drop 8 r'))
              /\ be_uint (drop 2 (drop 8 r)) = be_uint (drop 2 (drop 8 r'))) by lia.
  destruct E as (E0 & E1 & E2 & E3 & E4).
  apply le_uint_inj in E0, E1, E2;
    [| by rewrite !length_take, ?length_drop, Hr, Hr' ..].
  apply be_uint_inj in E3, E4;
    [| by rewrite ?length_take, !length_drop, Hr, Hr' ..].
  do 17 (destruct r as [|? r]; try discriminate Hr).
  do 17 (destruct r' as [|? r']; try discriminate Hr').
  simpl in E0, E1, E2, E3, E4. congruence.
Qed.

(** C8, as the code has it. A 16-byte region is unpacked little-endian as
    a 32-bit number, two 16-bit numbers and eight raw bytes, and written as
    five groups of hexadecimal digits between hyphens, of widths 8, 4, 4, 4
    and 12: the three numbers, then the digits of the first two raw bytes,
    then the digits of the other six. *)
Theorem guid_rendering (region : list byte) :
  length region = 16%nat ->
  let p0 := le_uint (take 4 region) in
  let p1 := le_uint (take 2 (drop 4 region)) in
  let p2 := le_uint (take 2 (drop 6 region)) in
  let raw := drop 8 region in
  unpack_IHH8s region = Return (p0, p1, p2, raw)
  /\ length raw = 8%nat
  /\ split "-" (guid_str (p0, p1, p2, raw))
     = [format_x 8 p0; format_x 4 p1; format_x 4 p2;
        hex (take 2 raw); hex (drop 2 raw)]
  /\ String.length <$> split "-" (guid_str (p0, p1, p2, raw))
     = [8; 4; 4; 4; 12]%nat
  /\ int16 0 (format_x 8 p0) = Some p0
  /\ int16 0 (format_x 4 p1) = Some p1
  /\ int16 0 (format_x 4 p2) = Some p2
  /\ int16 0 (hex (take 2 raw)) = Some (be_uint (take 2 raw))
  /\ int16 0 (hex (drop 2 raw)) = Some (be_uint (drop 2 raw)).
Proof.
  intros H p0 p1 p2 raw.
  destruct (unpacked_ranges region H) as (H0 & H1 & H2 & H3).
  destruct (guid_str_groups p0 p1 p2 raw H0 H1 H2 H3)
    as (G & L0 & L1 & L2 & L3 & L4 & I0 & I1 & I2).
  split; [by apply unpack_IHH8s_ok|]. split; [done|]. split; [done|].
  split.
  { rewrite G. cbn [fmap list_fmap]. by rewrite L0, L1, L2, L3, L4. }
  by rewrite !int16_hex.
Qed.

Lemma guid_rendering_witness :
  length Sample.region = 16%nat
  /\ unpack_IHH8s Sample.region
     = Return (0x03020100, 0x0504, 0x0706,
               [x08; x09; x0a; x0b; x0c; x0d; x0e; x0f])
  /\ split "-" (guid_str (0x03020100, 0x0504, 0x0706,
                          [x08; x09; x0a; x0b; x0c; x0d; x0e; x0f]))
     = [format_x 8 0x03020100; format_x 4 0x0504; format_x 4 0x0706;
        hex [x08; x09]; hex [x0a; x0b; x0c; x0d; x0e; x0f]].
Proof.
  split; [reflexivity|].
  destruct (guid_rendering Sample.region eq_refl) as (U & _ & G & _).
  split; [exact U | exact G].
Defined.

(** C8, as stated, fails: for the bytes 00 .. 0f the fourth group is
    "0809", the digits of two raw bytes, not of four. *)
Lemma raw_bytes_not_split_4_4 : ~ raw_bytes_split_4_4.
Proof.
  intros H.
  destruct (H Sample.region _ _ _ _ eq_refl eq_refl) as (g1 & g2 & g3 & E).
  vm_compute in E. discriminate E.
Qed.

(** ** The two identifiers of a plan record *)

(** C7. When [_decode_plan_info] returns a record, its [job_guid] is the
    identifier of bytes 0-15 and its [plan_guid] the identifier of bytes
    16-31; when the two regions differ, so do the two identifiers. *)
Theorem plan_guids_from_their_regions (body : list byte) (p : PlanInfo.t) :
  BystronicClient._decode_plan_info (Some body) = Return (Some p) ->
  guid_of (take 16 body) = Return (PlanInfo.job_guid p)
  /\ guid_of (slice body 16 32) = Return (PlanInfo.plan_guid p)
  /\ (take 16 body <> slice body 16 32 ->
      PlanInfo.job_guid p <> PlanInfo.plan_guid p).
Proof.
  intros H. unfold BystronicClient._decode_plan_info in H.
  destruct (Z.of_nat (length body) <? 36) eqn:Hlen; [discriminate H|].
  apply Z.ltb_ge in Hlen.
  destruct (header_lengths body ltac:(lia)) as (H16 & H32 & _).
  assert (J : exists a b, guid_of (take 16 body) = Return a
                          /\ guid_of (slice body 16 32) = Return b
                          /\ PlanInfo.job_guid p = a /\ PlanInfo.plan_guid p = b).
  { rewrite !guid_of_region by done.
    rewrite !unpack_IHH8s_ok in H by done. cbv [mbind outcome_bind mret outcome_ret reraise] in H.
    destruct (unpacked_ranges _ H16) as (A0 & A1 & A2 & A3).
    destruct (unpacked_ranges _ H32) as (B0 & B1 & B2 & B3).
    rewrite !UUID_guid_str in H by done.
    match type of H with context [unpack_I ?x] =>
      destruct (unpack_I x) as [L|?]; cbv beta iota in H; [|discriminate H] end.
    match type of H with context [decode_utf8 ?x] =>
      destruct (decode_utf8 x) as [name|?]; cbv beta iota in H; [|discriminate H] end.
    match type of H with context [unpack_ddd ?x] =>
      destruct (unpack_ddd x) as [[[sx sy] mt]|?]; cbv beta iota in H;
        [|discriminate H] end.
    match type of H with context [unpack_ii ?x] =>
      destruct (unpack_ii x) as [[tr tp]|?]; cbv beta iota in H;
        [|discriminate H] end.
    match type of H with context [unpack_i ?x] =>
      destruct (unpack_i x) as [ps|?]; cbv beta iota in H; [|discriminate H] end.
    match type of H with context [unpack_d ?x] =>
      destruct (unpack_d x) as [ect|?]; cbv beta iota in H; [|discriminate H] end.
    simplify_eq. do 2 eexists. repeat split; reflexivity. }
  destruct J as (a & b & Ha & Hb & -> & ->).
  split; [done | split; [done|]].
  intros Hne Heq. apply Hne. apply guid_of_inj; [done.. |]. congruence.
Qed.

Lemma plan_guids_from_their_regions_witness :
  BystronicClient._decode_plan_info (Some Sample.plan_body) = Return (Some Sample.plan)
  /\ take 16 Sample.plan_body <> slice Sample.plan_body 16 32
  /\ PlanInfo.job_guid Sample.plan <> PlanInfo.plan_guid Sample.plan.
Proof.
  assert (H : BystronicClient._decode_plan_info (Some Sample.plan_body)
              = Return (Some Sample.plan)) by (vm_compute; reflexivity).
  assert (Hne : take 16 Sample.plan_body <> slice Sample.plan_body 16 32)
    by (vm_compute; discriminate).
  split; [exact H | split; [exact Hne|]].
  exact (proj2 (proj2 (plan_guids_from_their_regions _ _ H)) Hne).
Defined.

(* ===================================================================== *)
(** * Further properties                                                  *)
(* ===================================================================== *)

(** ** Buffers laid out field by field *)

Lemma byte_val_of z : byte_val (byte_of z) = z mod 256.
Proof.
  unfold byte_of, byte_val.
  assert (Hr : 0 <= z mod 256 < 256) by (apply Z.mod_pos_bound; lia).
  destruct (Byte.of_N (Z.to_N (z mod 256))) as [b|] eqn:E; simpl.
  - apply Byte.to_of_N in E. rewrite E. lia.
  - apply Byte.of_N_None_iff in E. lia.
Qed.

Lemma le_bytes_length n : forall x, length (le_bytes n x) = n.
Proof. induction n as [|n IH]; intros x; simpl; [done | by rewrite IH]. Qed.

Lemma le_uint_le_bytes n : forall x,
  0 <= x < 256 ^ Z.of_nat n -> le_uint (le_bytes n x) = x.
Proof.
  induction n as [|n IH]; intros x Hx.
  - simpl in *. lia.
  - rewrite Nat2Z.inj_succ, Z.pow_succ_r in Hx by lia.
    cbn [le_bytes le_uint]. rewrite byte_val_of, IH.
    + Z.div_mod_to_equations. lia.
    + set (p := 256 ^ Z.of_nat n) in *. Z.div_mod_to_equations. lia.
Qed.

Lemma slice_skip {A} (pre x : list A) lo hi :
  Z.of_nat (length pre) = lo ->
  slice (pre ++ x) lo hi = take (Z.to_nat (hi - lo)) x.
Proof.
  intros <-. unfold slice. rewrite Nat2Z.id. by rewrite drop_app_length.
Qed.

Lemma slice_field {A} (pre field post : list A) lo hi :
  Z.of_nat (length pre) = lo ->
  lo + Z.of_nat (length field) = hi ->
  slice (pre ++ field ++ post) lo hi = field.
Proof.
  intros Hlo Hhi. rewrite (slice_skip pre), <- Hhi by done.
  replace (Z.to_nat (lo + Z.of_nat (length field) - lo)) with (length field) by lia.
  by rewrite take_app_length.
Qed.

(** The job decoder on a buffer given field by field. *)
Lemma job_layout (region skipped name_bytes rest : list byte)
    (path_length : Z) :
  length region = 16%nat -> length skipped = 16%nat ->
  Z.of_nat (length name_bytes) < 2 ^ 32 ->
  0 <= path_length < 2 ^ 32 ->
  BystronicClient._decode_job_info
    (Some (region ++ skipped ++ le_bytes 4 (Z.of_nat (length name_bytes))
             ++ name_bytes ++ le_bytes 4 path_length ++ rest))
  = reraise (fun e => DataError (Caused "Failed to decode job info: " (str e)))
      (name ← decode_utf8 name_bytes;
       file_path ← decode_utf8 (take (Z.to_nat path_length) rest);
       guid ← guid_of region;
       Return (Some (JobInfo.mk guid name file_path None None))).
Proof.
  intros Hr Hs Hn Hp.
  set (n4 := le_bytes 4 (Z.of_nat (length name_bytes))).
  set (p4 := le_bytes 4 path_length).
  set (body := region ++ skipped ++ n4 ++ name_bytes ++ p4 ++ rest).
  assert (Ln4 : length n4 = 4%nat) by apply le_bytes_length.
  assert (Lp4 : length p4 = 4%nat) by apply le_bytes_length.
  assert (Hlen : (36 <= length body)%nat)
    by (unfold body; rewrite !length_app; lia).
  unfold BystronicClient._decode_job_info.
  assert ((Z.of_nat (length body) <? 36) = false) as -> by (apply Z.ltb_ge; lia).
  assert (take 16 body = region) as ->
    by (unfold body; rewrite <- Hr; apply take_app_length).
  assert (slice body 32 36 = n4) as ->.
  { unfold body. rewrite (app_assoc region skipped).
    apply slice_field; rewrite ?length_app; lia. }
  rewrite unpack_I_ok by done. unfold n4 at 1.
  rewrite le_uint_le_bytes by (change (256 ^ Z.of_nat 4) with (2 ^ 32); lia).
  rewrite unpack_IHH8s_ok by done. cbv [mbind outcome_bind].
  set (L := Z.of_nat (length name_bytes)).
  assert (slice body 36 (36 + L) = name_bytes) as ->.
  { unfold body. rewrite (app_assoc region skipped), (app_assoc _ n4).
    apply slice_field; rewrite ?length_app; lia. }
  assert (slice body (36 + L) (36 + L + 4) = p4) as ->.
  { unfold body.
    rewrite (app_assoc region skipped), (app_assoc _ n4), (app_assoc _ name_bytes).
    apply slice_field; rewrite ?length_app; lia. }
  rewrite (unpack_I_ok p4) by done. unfold p4 at 1.
  rewrite le_uint_le_bytes by (change (256 ^ Z.of_nat 4) with (2 ^ 32); lia).
  assert (slice body (36 + L + 4) (36 + L + 4 + path_length)
          = take (Z.to_nat path_length) rest) as ->.
  { unfold body.
    rewrite (app_assoc region skipped), (app_assoc _ n4), (app_assoc _ name_bytes),
      (app_assoc _ p4).
    rewrite slice_skip with (lo := 36 + L + 4) by (rewrite ?length_app; lia).
    f_equal. lia. }
  unfold guid_of. rewrite unpack_IHH8s_ok by done.
  run_binds. by destruct (decode_utf8 name_bytes).
Qed.

(** X1. A job record laid out as the decoder reads it: a 16-byte
    identifier, 16 bytes of any content, the name behind its 4-byte length,
    the file path behind its 4-byte length, and any bytes after it. When
    the two texts are valid UTF-8, the decoder returns the identifier of
    the first 16 bytes, the name and the file path; the 16 bytes in between
    and the bytes at the end play no part. *)
Theorem job_round_trip (region skipped name_bytes path_bytes trailing : list byte)
    (guid : Z) (name file_path : list Z) :
  length region = 16%nat -> length skipped = 16%nat ->
  Z.of_nat (length name_bytes) < 2 ^ 32 ->
  Z.of_nat (length path_bytes) < 2 ^ 32 ->
  guid_of region = Return guid ->
  decode_utf8 name_bytes = Return name ->
  decode_utf8 path_bytes = Return file_path ->
  BystronicClient._decode_job_info
    (Some (region ++ skipped ++ le_bytes 4 (Z.of_nat (length name_bytes))
             ++ name_bytes ++ le_bytes 4 (Z.of_nat (length path_bytes))
             ++ path_bytes ++ trailing))
  = Return (Some (JobInfo.mk guid name file_path None None)).
Proof.
  intros Hr Hs Hn Hp Hg Hname Hpath.
  rewrite job_layout by (done || lia).
  rewrite Nat2Z.id, take_app_length, Hname, Hpath, Hg. reflexivity.
Qed.

Lemma job_round_trip_witness :
  BystronicClient._decode_job_info
    (Some (Sample.region ++ Example.skipped
             ++ le_bytes 4 (Z.of_nat (length Example.name_bytes))
             ++ Example.name_bytes
             ++ le_bytes 4 (Z.of_nat (length Example.path_bytes))
             ++ Example.path_bytes ++ [x00; xff]))
  = Return (Some Example.job).
Proof.
  apply (job_round_trip Sample.region Example.skipped Example.name_bytes
           Example.path_bytes [x00; xff]); try reflexivity; vm_compute; reflexivity.
Defined.

(** X2. A file-path length that runs past the end of the buffer is not an
    error in the job decoder: the slice is clipped, and the file path is
    whatever is left of the buffer, when that is valid UTF-8. *)
Theorem job_path_clipped (region skipped name_bytes rest : list byte)
    (path_length guid : Z) (name file_path : list Z) :
  length region = 16%nat -> length skipped = 16%nat ->
  Z.of_nat (length name_bytes) < 2 ^ 32 ->
  Z.of_nat (length rest) < path_length < 2 ^ 32 ->
  guid_of region = Return guid ->
  decode_utf8 name_bytes = Return name ->
  decode_utf8 rest = Return file_path ->
  BystronicClient._decode_job_info
    (Some (region ++ skipped ++ le_bytes 4 (Z.of_nat (length name_bytes))
             ++ name_bytes ++ le_bytes 4 path_length ++ rest))
  = Return (Some (JobInfo.mk guid name file_path None None)).
Proof.
  intros Hr Hs Hn Hp Hg Hname Hpath.
  rewrite job_layout by (done || lia).
  rewrite take_ge by lia. rewrite Hname, Hpath, Hg. reflexivity.
Qed.

Lemma job_path_clipped_witness :
  BystronicClient._decode_job_info
    (Some (Sample.region ++ Example.skipped
             ++ le_bytes 4 (Z.of_nat (length Example.name_bytes))
             ++ Example.name_bytes ++ le_bytes 4 1000 ++ Example.path_bytes))
  = Return (Some Example.job).
Proof.
  apply (job_path_clipped Sample.region Example.skipped Example.name_bytes
           Example.path_bytes 1000); try reflexivity; vm_compute; try reflexivity.
  split; reflexivity.
Defined.

Lemma le_uint_take_app (a b : list byte) n :
  length a = n -> le_uint (take n (a ++ b)) = le_uint a.
Proof. intros <-. by rewrite take_app_length. Qed.

Lemma drop_app_exact {A} (a b : list A) n : length a = n -> drop n (a ++ b) = b.
Proof. intros <-. apply drop_app_length. Qed.

(** X3. A plan record laid out as the decoder reads it: two 16-byte
    identifiers, the name behind its 4-byte length, three 8-byte sizes, two
    4-byte counts, a 4-byte state, an 8-byte cut time, and any bytes after
    them. When the name is valid UTF-8 the decoder returns the two
    identifiers, the name, the sizes and the cut time as their little-endian
    bit patterns, and the counts and the state as signed 32-bit numbers. *)
Theorem plan_round_trip
    (job_region plan_region name_bytes sx sy mt runs parts state cut trailing
       : list byte)
    (job_guid plan_guid : Z) (name : list Z) :
  length job_region = 16%nat -> length plan_region = 16%nat ->
  Z.of_nat (length name_bytes) < 2 ^ 32 ->
  length sx = 8%nat -> length sy = 8%nat -> length mt = 8%nat ->
  length runs = 4%nat -> length parts = 4%nat -> length state = 4%nat ->
  length cut = 8%nat ->
  guid_of job_region = Return job_guid ->
  guid_of plan_region = Return plan_guid ->
  decode_utf8 name_bytes = Return name ->
  BystronicClient._decode_plan_info
    (Some (job_region ++ plan_region
             ++ le_bytes 4 (Z.of_nat (length name_bytes)) ++ name_bytes
             ++ sx ++ sy ++ mt ++ runs ++ parts ++ state ++ cut ++ trailing))
  = Return
      (Some (PlanInfo.mk job_guid plan_guid name (le_uint sx) (le_uint sy)
               (le_uint mt) (to_int32 (le_uint runs)) (to_int32 (le_uint parts))
               (to_int32 (le_uint state)) (le_uint cut) None)).
Proof.
  intros Hj Hp Hn Hsx Hsy Hmt Hru Hpa Hst Hcu Hjg Hpg Hname.
  set (n4 := le_bytes 4 (Z.of_nat (length name_bytes))).
  set (body := job_region ++ plan_region ++ n4 ++ name_bytes
                 ++ sx ++ sy ++ mt ++ runs ++ parts ++ state ++ cut ++ trailing).
  assert (Ln4 : length n4 = 4%nat) by apply le_bytes_length.
  assert (Hlen : (36 <= length body)%nat)
    by (unfold body; rewrite !length_app; lia).
  unfold BystronicClient._decode_plan_info.
  assert ((Z.of_nat (length body) <? 36) = false) as -> by (apply Z.ltb_ge; lia).
  assert (take 16 body = job_region) as ->
    by (unfold body; rewrite <- Hj; apply take_app_length).
  assert (slice body 16 32 = plan_region) as ->
    by (unfold body; apply slice_field; lia).
  assert (slice body 32 36 = n4) as ->.
  { unfold body. rewrite (app_assoc job_region).
    apply slice_field; rewrite ?length_app; lia. }
  unfold guid_of in Hjg, Hpg.
  rewrite !unpack_IHH8s_ok in * by done.
  rewrite unpack_I_ok by done. unfold n4 at 1.
  rewrite le_uint_le_bytes by (change (256 ^ Z.of_nat 4) with (2 ^ 32); lia).
  cbv [mbind outcome_bind] in *.
  set (L := Z.of_nat (length name_bytes)).
  assert (slice body 36 (36 + L) = name_bytes) as ->.
  { unfold body. rewrite (app_assoc job_region), (app_assoc _ n4).
    apply slice_field; rewrite ?length_app; lia. }
  rewrite Hname. cbv beta iota.
  assert (slice body (36 + L) (36 + L + 24) = sx ++ sy ++ mt) as ->.
  { unfold body.
    rewrite (app_assoc job_region), (app_assoc _ n4), (app_assoc _ name_bytes).
    rewrite (app_assoc sx), (app_assoc (sx ++ sy)), <- (app_assoc sx sy mt).
    apply slice_field; rewrite ?length_app; lia. }
  assert (slice body (36 + L + 24) (36 + L + 24 + 8) = runs ++ parts) as ->.
  { unfold body.
    rewrite (app_assoc job_region), (app_assoc _ n4), (app_assoc _ name_bytes),
      (app_assoc _ sx), (app_assoc _ sy), (app_assoc _ mt).
    rewrite (app_assoc runs).
    apply slice_field; rewrite ?length_app; lia. }
  assert (slice body (36 + L + 24 + 8) (36 + L + 24 + 8 + 4) = state) as ->.
  { unfold body.
    rewrite (app_assoc job_region), (app_assoc _ n4), (app_assoc _ name_bytes),
      (app_assoc _ sx), (app_assoc _ sy), (app_assoc _ mt), (app_assoc _ runs),
      (app_assoc _ parts).
    apply slice_field; rewrite ?length_app; lia. }
  assert (slice body (36 + L + 24 + 8 + 4) (36 + L + 24 + 8 + 4 + 8) = cut) as ->.
  { unfold body.
    rewrite (app_assoc job_region), (app_assoc _ n4), (app_assoc _ name_bytes),
      (app_assoc _ sx), (app_assoc _ sy), (app_assoc _ mt), (app_assoc _ runs),
      (app_assoc _ parts), (app_assoc _ state).
    apply slice_field; rewrite ?length_app; lia. }
  unfold unpack_ddd, unpack_ii, unpack_i, unpack_d.
  rewrite !struct_size_ok by (rewrite ?length_app; lia).
  cbv [mbind outcome_bind reraise].
  rewrite Hjg, Hpg.
  rewrite (le_uint_take_app sx), (drop_app_exact sx), (le_uint_take_app sy),
    (le_uint_take_app runs), (drop_app_exact runs) by done.
  replace (drop 16 (sx ++ sy ++ mt)) with mt
    by (rewrite (app_assoc sx); symmetry; apply drop_app_exact;
        rewrite length_app; lia).
  reflexivity.
Qed.

Lemma plan_round_trip_witness :
  BystronicClient._decode_plan_info
    (Some (Sample.region ++ Sample.other_region
             ++ le_bytes 4 (Z.of_nat (length Example.name_bytes))
             ++ Example.name_bytes
             ++ Example.d1 ++ Example.d2 ++ Example.d3 ++ Example.i1
             ++ Example.i2 ++ Example.i3 ++ Example.d4 ++ [x00]))
  = Return (Some Example.plan).
Proof.
  apply (plan_round_trip Sample.region Sample.other_region Example.name_bytes
           Example.d1 Example.d2 Example.d3 Example.i1 Example.i2 Example.i3
           Example.d4 [x00]); try reflexivity; vm_compute; reflexivity.
Defined.

(** ** What a returned record says about its buffer *)

Lemma reraise_return {A} wrap (m : outcome A) a :
  reraise wrap m = Return a -> m = Return a.
Proof. destruct m; simpl; [done | discriminate]. Qed.

Lemma reraise_raise {A} wrap (m : outcome A) e :
  reraise wrap m = Raise e -> exists e', m = Raise e' /\ e = wrap e'.
Proof. destruct m as [a|e']; simpl; [discriminate|]. intros [= <-]. eauto. Qed.

(** Peels the first bind of the computation in [H], keeping the equation
    of a step that returned. *)
Ltac peel H x E :=
  match type of H with
  | (match ?m with Return _ => _ | Raise _ => _ end) = _ =>
      destruct m as [x|?] eqn:E; cbv beta iota in H; [|discriminate H]
  end.

Lemma job_decode_inv (body : list byte) (r : option JobInfo.t) :
  BystronicClient._decode_job_info (Some body) = Return r ->
  ((length body < 36)%nat /\ r = None)
  \/ ((36 <= length body)%nat
      /\ exists guid name file_path,
           let start := 36 + le_uint (slice body 32 36) in
           guid_of (take 16 body) = Return guid
           /\ decode_utf8 (slice body 36 start) = Return name
           /\ length (slice body start (start + 4)) = 4%nat
           /\ decode_utf8
                (slice body (start + 4)
                   (start + 4 + le_uint (slice body start (start + 4))))
              = Return file_path
           /\ r = Some (JobInfo.mk guid name file_path None None)).
Proof.
  intros H. apply reraise_return in H.
  destruct (Z.of_nat (length body) <? 36) eqn:Hlen.
  { left. apply Z.ltb_lt in Hlen. split; [lia | congruence]. }
  right. apply Z.ltb_ge in Hlen.
  destruct (header_lengths body ltac:(lia)) as (H16 & _ & H36).
  split; [lia|]. unfold guid_of.
  rewrite unpack_IHH8s_ok in * by done. rewrite unpack_I_ok in H by done.
  cbv [mbind outcome_bind] in *.
  peel H name Ename.
  unfold unpack_I at 1 in H. unfold struct_size in H.
  destruct (decide (length (slice body (36 + le_uint (slice body 32 36))
                              (36 + le_uint (slice body 32 36) + 4)) = 4%nat))
    as [Hfour|]; cbv [mbind outcome_bind] in H; [|discriminate H].
  peel H file_path Epath. peel H guid Eguid.
  exists guid, name, file_path. repeat split; try done. congruence.
Qed.

Lemma plan_decode_inv (body : list byte) (r : option PlanInfo.t) :
  BystronicClient._decode_plan_info (Some body) = Return r ->
  ((length body < 36)%nat /\ r = None)
  \/ ((36 <= length body)%nat
      /\ exists job_guid plan_guid name sx sy mt runs parts state cut,
           let start := 36 + le_uint (slice body 32 36) in
           guid_of (take 16 body) = Return job_guid
           /\ guid_of (slice body 16 32) = Return plan_guid
           /\ decode_utf8 (slice body 36 start) = Return name
           /\ unpack_ddd (slice body start (start + 24)) = Return (sx, sy, mt)
           /\ unpack_ii (slice body (start + 24) (start + 24 + 8))
              = Return (runs, parts)
           /\ unpack_i (slice body (start + 24 + 8) (start + 24 + 8 + 4))
              = Return state
           /\ unpack_d (slice body (start + 24 + 8 + 4) (start + 24 + 8 + 4 + 8))
              = Return cut
           /\ r = Some (PlanInfo.mk job_guid plan_guid name sx sy mt runs parts
                          state cut None)).
Proof.
  intros H. apply reraise_return in H.
  destruct (Z.of_nat (length body) <? 36) eqn:Hlen.
  { left. apply Z.ltb_lt in Hlen. split; [lia | congruence]. }
  right. apply Z.ltb_ge in Hlen.
  destruct (header_lengths body ltac:(lia)) as (H16 & H32 & H36).
  split; [lia|]. unfold guid_of.
  rewrite !unpack_IHH8s_ok in * by done. rewrite unpack_I_ok in H by done.
  cbv [mbind outcome_bind] in *.
  peel H name Ename. peel H sizes Esizes. destruct sizes as [[sx sy] mt].
  cbv beta iota in H.
  peel H counts Ecounts. destruct counts as [runs parts]. cbv beta iota in H.
  peel H state Estate. peel H ect Ecut.
  peel H job_guid Ejob. peel H plan_guid Eplan.
  exists job_guid, plan_guid, name, sx, sy, mt, runs, parts, state, ect.
  repeat split; try done. congruence.
Qed.

Lemma struct_size_inv n buf : struct_size n buf = Return tt -> length buf = n.
Proof. unfold struct_size. by destruct (decide (length buf = n)). Qed.

Lemma unpack_bind_inv {A} n buf (v : A) (r : A) :
  (_ ← struct_size n buf; Return v) = Return r -> length buf = n /\ r = v.
Proof.
  unfold struct_size. destruct (decide (length buf = n)) as [Hn|Hn];
    cbv [mbind outcome_bind]; intros H; [|discriminate H].
  injection H as <-. done.
Qed.

Lemma slice_reaches {A} (l : list A) lo hi (n : nat) :
  0 <= lo -> length (slice l lo hi) = n -> (0 < n)%nat ->
  lo + Z.of_nat n <= Z.of_nat (length l).
Proof.
  unfold slice. rewrite length_take, length_drop. lia.
Qed.

Lemma to_int32_range u : 0 <= u < 2 ^ 32 -> - 2 ^ 31 <= to_int32 u < 2 ^ 31.
Proof. unfold to_int32. destruct (u <? 2 ^ 31) eqn:E; lia. Qed.

Lemma le_uint_4 (buf : list byte) : length buf = 4%nat -> 0 <= le_uint buf < 2 ^ 32.
Proof. intros H. pose proof (le_uint_range buf) as R. rewrite H in R. exact R. Qed.

(** X4. The decoders raise nothing but [DataError], with their own prefix
    in front of the text of the cause; and on a body of 36 bytes or more
    they never answer [None]: a body that long is either a record or a
    failure. *)
Theorem decoders_raise_only_DataError (extension_object : option (list byte)) :
  (forall e, BystronicClient._decode_job_info extension_object = Raise e ->
     exists e', e = DataError (Caused "Failed to decode job info: " (str e')))
  /\ (forall e, BystronicClient._decode_plan_info extension_object = Raise e ->
        exists e', e = DataError (Caused "Failed to decode plan info: " (str e')))
  /\ (forall body, extension_object = Some body -> (36 <= length body)%nat ->
        BystronicClient._decode_job_info extension_object <> Return None
        /\ BystronicClient._decode_plan_info extension_object <> Return None).
Proof.
  split; [|split].
  - intros e H. destruct extension_object as [body|]; [|discriminate H].
    apply reraise_raise in H as (e' & _ & ->). eauto.
  - intros e H. destruct extension_object as [body|]; [|discriminate H].
    apply reraise_raise in H as (e' & _ & ->). eauto.
  - intros body -> Hlen. split; intros H.
    + apply job_decode_inv in H as [[Hshort _]|(_ & g & n & f & _ & _ & _ & _ & H)];
        [lia | discriminate H].
    + apply plan_decode_inv in H
        as [[Hshort _]|(_ & ? & ? & ? & ? & ? & ? & ? & ? & ? & ? & H)];
        [lia | ].
      destruct H as (_ & _ & _ & _ & _ & _ & _ & H). discriminate H.
Qed.

Lemma decoders_raise_only_DataError_witness :
  (exists e',
     BystronicClient._decode_job_info (Some Sample.truncated_body)
     = Raise (DataError (Caused "Failed to decode job info: " (str e'))))
  /\ BystronicClient._decode_plan_info (Some Sample.plan_body) <> Return None.
Proof.
  destruct (decoders_raise_only_DataError (Some Sample.truncated_body))
    as (Hjob & _ & _).
  destruct (decoders_raise_only_DataError (Some Sample.plan_body))
    as (_ & _ & Hlong).
  split.
  - destruct (Hjob _ eq_refl) as [e' He'].
    exists e'. vm_compute. vm_compute in He'. congruence.
  - apply (Hlong Sample.plan_body eq_refl). vm_compute. lia.
Defined.

(** X5. A returned record had all its fixed fields inside the buffer. With
    [L] the declared name length: a job record needs the 36-byte header,
    the name and the 4-byte length of the file path, so at least [40 + L]
    bytes; a plan record needs the header, the name and the 44 bytes of
    numbers behind it, so at least [80 + L] bytes. *)
Theorem record_needs_its_fields (body : list byte) :
  let L := le_uint (slice body 32 36) in
  (forall j, BystronicClient._decode_job_info (Some body) = Return (Some j) ->
     40 + L <= Z.of_nat (length body))
  /\ (forall p, BystronicClient._decode_plan_info (Some body) = Return (Some p) ->
        80 + L <= Z.of_nat (length body)).
Proof.
  intros L. pose proof (le_uint_range (slice body 32 36)) as [HL _]. fold L in HL.
  split.
  - intros j H.
    apply job_decode_inv in H as [[_ [=]]|(_ & g & n & f & _ & _ & H4 & _)].
    fold L in H4. apply slice_reaches in H4; lia.
  - intros p H.
    apply plan_decode_inv in H
      as [[_ [=]]|(_ & ? & ? & ? & ? & ? & ? & ? & ? & ? & c & H)].
    fold L in H. destruct H as (_ & _ & _ & _ & _ & _ & Hd & _).
    apply unpack_bind_inv in Hd as [Hd _].
    apply slice_reaches in Hd; lia.
Qed.

Lemma record_needs_its_fields_witness :
  BystronicClient._decode_plan_info (Some Sample.plan_body) = Return (Some Sample.plan)
  /\ 80 + le_uint (slice Sample.plan_body 32 36)
     <= Z.of_nat (length Sample.plan_body).
Proof.
  assert (H : BystronicClient._decode_plan_info (Some Sample.plan_body)
              = Return (Some Sample.plan)) by (vm_compute; reflexivity).
  split; [exact H|].
  exact (proj2 (record_needs_its_fields Sample.plan_body) Sample.plan H).
Defined.

Lemma guid_of_range region g : guid_of region = Return g -> 0 <= g < 2 ^ 128.
Proof.
  intros H.
  destruct (decide (length region = 16%nat)) as [Hlen|Hlen].
  - rewrite guid_of_region in H by done. injection H as <-.
    destruct (unpacked_ranges region Hlen) as (A0 & A1 & A2 & A3).
    pose proof (be_uint_range (take 2 (drop 8 region))) as A4.
    pose proof (be_uint_range (drop 2 (drop 8 region))) as A5.
    rewrite length_take, length_drop, Hlen in A4. rewrite !length_drop, Hlen in A5.
    change (256 ^ Z.of_nat (2 `min` (16 - 8))) with (16 ^ 4) in A4.
    change (256 ^ Z.of_nat (16 - 8 - 2)) with (16 ^ 12) in A5.
    unfold guid_int. lia.
  - unfold guid_of, unpack_IHH8s in H. rewrite struct_size_bad in H by done.
    discriminate H.
Qed.

(** X6. In a returned plan record both identifiers are 128-bit numbers and
    the two counts and the state are signed 32-bit numbers. *)
Theorem plan_numbers_in_range (body : list byte) (p : PlanInfo.t) :
  BystronicClient._decode_plan_info (Some body) = Return (Some p) ->
  0 <= PlanInfo.job_guid p < 2 ^ 128
  /\ 0 <= PlanInfo.plan_guid p < 2 ^ 128
  /\ - 2 ^ 31 <= PlanInfo.total_runs p < 2 ^ 31
  /\ - 2 ^ 31 <= PlanInfo.total_parts p < 2 ^ 31
  /\ - 2 ^ 31 <= PlanInfo.plan_state p < 2 ^ 31.
Proof.
  intros H.
  apply plan_decode_inv in H
    as [[_ [=]]|(_ & jg & pg & n & sx & sy & mt & ru & pa & st & c & H)].
  destruct H as (Hj & Hp & _ & _ & Hii & Hi & _ & [= ->]). simpl.
  apply guid_of_range in Hj, Hp.
  apply unpack_bind_inv in Hii as [Hlen [= -> ->]].
  apply unpack_bind_inv in Hi as [Hlen' ->].
  repeat split; try lia; apply to_int32_range, le_uint_4;
    rewrite ?length_take, ?length_drop; lia.
Qed.

Lemma plan_numbers_in_range_witness :
  BystronicClient._decode_plan_info
    (Some (Sample.region ++ Sample.other_region
             ++ le_bytes 4 2 ++ Example.name_bytes
             ++ Example.d1 ++ Example.d2 ++ Example.d3 ++ Example.i1
             ++ Example.i2 ++ Example.i3 ++ Example.d4))
  = Return (Some Example.plan)
  /\ - 2 ^ 31 <= PlanInfo.total_parts Example.plan < 2 ^ 31.
Proof.
  assert (H : BystronicClient._decode_plan_info
                (Some (Sample.region ++ Sample.other_region
                         ++ le_bytes 4 2 ++ Example.name_bytes
                         ++ Example.d1 ++ Example.d2 ++ Example.d3 ++ Example.i1
                         ++ Example.i2 ++ Example.i3 ++ Example.d4))
              = Return (Some Example.plan)) by (vm_compute; reflexivity).
  split; [exact H|].
  exact (proj1 (proj2 (proj2 (proj2 (plan_numbers_in_range _ _ H))))).
Defined.

Lemma be_uint_app a b :
  be_uint (a ++ b) = be_uint a * 256 ^ Z.of_nat (length b) + be_uint b.
Proof. unfold be_uint at 1. rewrite fold_left_app. apply be_from. Qed.

Lemma be_uint_of_rev bs : be_uint (rev bs) = le_uint bs.
Proof. by rewrite be_uint_rev, rev_involutive. Qed.

(** X7. The identifier of a 16-byte region is the number that its bytes
    spell, most significant first, once the first three fields are turned
    around: bytes 3, 2, 1, 0, then 5, 4, then 7, 6, then 8 to 15 as they
    are. This is the reading of [uuid.UUID(bytes_le=region)]; building the
    [UUID] from the text never fails. *)
Theorem guid_is_bytes_le (region : list byte) :
  length region = 16%nat ->
  guid_of region = Return (be_uint (guid_bytes_be region))
  /\ length (guid_bytes_be region) = 16%nat.
Proof.
  intros H. split.
  - rewrite guid_of_region by done. f_equal. unfold guid_int, guid_bytes_be.
    rewrite <- (take_drop 2 (drop 8 region)) at 3.
    rewrite !be_uint_app, !be_uint_of_rev.
    rewrite !length_app, !length_rev, !length_take, !length_drop, H.
    change (Z.of_nat (2 `min` (16 - 4) + (2 `min` (16 - 6)
              + (2 `min` (16 - 8) + (16 - 8 - 2))))%nat) with 12.
    change (Z.of_nat (2 `min` (16 - 6) + (2 `min` (16 - 8) + (16 - 8 - 2)))%nat)
      with 10.
    change (Z.of_nat (2 `min` (16 - 8) + (16 - 8 - 2))%nat) with 8.
    change (Z.of_nat (16 - 8 - 2)) with 6. lia.
  - unfold guid_bytes_be.
    rewrite !length_app, !length_rev, !length_take, !length_drop, H. reflexivity.
Qed.

Lemma guid_is_bytes_le_witness :
  guid_of Sample.region
  = Return (be_uint [x03; x02; x01; x00; x05; x04; x07; x06;
                     x08; x09; x0a; x0b; x0c; x0d; x0e; x0f]).
Proof. exact (proj1 (guid_is_bytes_le Sample.region eq_refl)). Defined.

(** ** The client session, call after call *)

(** X8. Method calls follow the life of the session. After a [connect]
    that failed, a method call raises the "not connected" [ConnectionError]
    whatever the session would answer. After a [connect] that succeeded, it
    gives the session's answer, with a session error wrapped into
    [MethodCallError]; and after the [disconnect] that follows it raises
    "not connected" again. *)
Theorem method_calls_follow_session {R : Type} (w w' : world)
    (self : BystronicClient.t) (method_node_id : string) (answer : outcome R) :
  BystronicClient._connected self = false ->
  let opened := (BystronicClient.connect w self).2 in
  let closed := (BystronicClient.disconnect w' opened).2 in
  (forall e, session_connect w = Raise e ->
     _call_method method_node_id answer opened = Raise not_connected)
  /\ (session_connect w = Return tt ->
      _call_method method_node_id answer opened
      = reraise
          (fun e => MethodCallError
                      (Caused ("Method call failed " +:+ method_node_id +:+ ": ")
                         (str e))) answer
      /\ (session_disconnect w' = Return tt ->
          _call_method method_node_id answer closed = Raise not_connected)).
Proof.
  intros Hflag opened closed. subst opened closed.
  unfold BystronicClient.connect, BystronicClient.disconnect, _call_method,
    BystronicClient._ensure_connected.
  split.
  - intros e ->. simpl. by rewrite Hflag.
  - intros ->. simpl. split; [done|]. by intros ->.
Qed.

Lemma method_calls_follow_session_witness :
  _call_method "History.GetJobInfo" (Return 1)
    (BystronicClient.connect (Sample.unreachable 0) Sample.fresh_client).2
  = Raise not_connected.
Proof.
  exact (proj1 (method_calls_follow_session (Sample.unreachable 0) Sample.healthy
                  Sample.fresh_client "History.GetJobInfo" (Return 1) eq_refl)
           Sample.refused eq_refl).
Defined.

(** X9. [connect] and then [disconnect], on a session that answers both,
    bring the client back: the flag is true in between and false at the
    end, URL and timeout are kept, the session was called once to open and
    once to close, and one more [disconnect] does nothing. *)
Theorem connect_then_disconnect (w w' : world) (self : BystronicClient.t) :
  BystronicClient._connected self = false ->
  session_connect w = Return tt ->
  session_disconnect w' = Return tt ->
  let opened := (BystronicClient.connect w self).2 in
  let closed := (BystronicClient.disconnect w' opened).2 in
  BystronicClient._connected opened = true
  /\ BystronicClient._connected closed = false
  /\ BystronicClient.url closed = BystronicClient.url self
  /\ BystronicClient.timeout closed = BystronicClient.timeout self
  /\ BystronicClient.session_calls closed
     = BystronicClient.session_calls self ++ [called_connect; called_disconnect]
  /\ forall w'', BystronicClient.disconnect w'' closed = (Return tt, closed).
Proof.
  intros Hflag Hc Hd opened closed. subst opened closed.
  unfold BystronicClient.connect, BystronicClient.disconnect.
  rewrite Hc. simpl. rewrite Hd. simpl.
  repeat split. by rewrite <- app_assoc.
Qed.

Lemma connect_then_disconnect_witness :
  BystronicClient.session_calls
    (BystronicClient.disconnect Sample.healthy
       (BystronicClient.connect Sample.healthy Sample.fresh_client).2).2
  = [called_connect; called_disconnect].
Proof.
  exact (proj1 (proj2 (proj2 (proj2 (proj2
           (connect_then_disconnect Sample.healthy Sample.healthy
              Sample.fresh_client eq_refl eq_refl eq_refl)))))).
Defined.

(** X10. When the session fails to close, [disconnect] lets the session's
    own error through, unwrapped, and the client stays marked as connected:
    the next [disconnect] calls the session again. *)
Theorem disconnect_failure_keeps_flag (w : world) (self : BystronicClient.t)
    (e : exn) :
  BystronicClient._connected self = true ->
  session_disconnect w = Raise e ->
  let after := (BystronicClient.disconnect w self).2 in
  (BystronicClient.disconnect w self).1 = Raise e
  /\ BystronicClient._connected after = true
  /\ BystronicClient.session_calls after
     = BystronicClient.session_calls self ++ [called_disconnect]
  /\ forall w', session_disconnect w' = Return tt ->
       BystronicClient.session_calls (BystronicClient.disconnect w' after).2
       = BystronicClient.session_calls self ++ [called_disconnect; called_disconnect]
       /\ BystronicClient._connected (BystronicClient.disconnect w' after).2 = false.
Proof.
  intros Hflag Hd after. subst after. unfold BystronicClient.disconnect.
  rewrite Hflag, Hd. simpl. rewrite Hflag.
  repeat split; try done; rewrite H; simpl; [by rewrite <- app_assoc | done].
Qed.

Lemma disconnect_failure_keeps_flag_witness :
  BystronicClient._connected
    (BystronicClient.disconnect Example.stuck Sample.connected_client).2 = true.
Proof.
  exact (proj1 (proj2 (disconnect_failure_keeps_flag Example.stuck
                         Sample.connected_client
                         (Foreign (SessionError "Timeout")) eq_refl eq_refl))).
Defined.

(** ** The probe *)

Lemma short_job_raises (body : list byte) :
  (36 <= length body)%nat ->
  Z.of_nat (length body) < 40 + le_uint (slice body 32 36) ->
  exists e',
    BystronicClient._decode_job_info (Some body)
    = Raise (DataError (Caused "Failed to decode job info: " (str e'))).
Proof.
  intros Hlen Hshort.
  destruct (BystronicClient._decode_job_info (Some body)) as [r|e] eqn:E.
  - exfalso. apply job_decode_inv in E
      as [[Hlt _]|(_ & g & n & f & _ & _ & H4 & _)]; [lia|].
    pose proof (le_uint_range (slice body 32 36)) as [HL _].
    apply slice_reaches in H4; lia.
  - apply reraise_raise in E as (e' & _ & ->). eauto.
Qed.

(** X11. A current-job record that is too short for its fields (at least
    36 bytes, but fewer than [40 + L] for the declared name length [L])
    does not make the probe raise: the probe answers a status with
    [is_connected] false, no job and no laser parameters, whose message is
    the decoder's failure behind the two prefixes. The client's own flag
    plays no part. *)
Theorem malformed_job_reported_as_disconnected (w : world)
    (self : BystronicClient.t) (body : list byte) :
  work_current_job w = Return (Some body) ->
  (36 <= length body)%nat ->
  Z.of_nat (length body) < 40 + le_uint (slice body 32 36) ->
  exists e',
    BystronicClient.get_machine_status w self
    = Return
        (MachineStatus.mk (BystronicClient.url self) false None None
           (Some (now w))
           (Some (Caused "Failed to get current job: "
                    (Caused "Failed to decode job info: " (str e'))))).
Proof.
  intros Hjob Hlen Hshort.
  destruct (short_job_raises body Hlen Hshort) as [e' E]. exists e'.
  unfold BystronicClient.get_machine_status, BystronicClient.get_current_job.
  rewrite Hjob. cbv [mbind outcome_bind]. rewrite E. reflexivity.
Qed.

Lemma malformed_job_reported_as_disconnected_witness :
  exists e',
    BystronicClient.get_machine_status
      {| session_connect := Return tt;
         session_disconnect := Return tt;
         work_current_job := Return (Some Sample.truncated_body);
         read_value := read_value Sample.healthy;
         now := 5 |}
      Sample.connected_client
    = Return
        (MachineStatus.mk Sample.machine_url false None None (Some 5)
           (Some (Caused "Failed to get current job: "
                    (Caused "Failed to decode job info: " (str e'))))).
Proof.
  apply (malformed_job_reported_as_disconnected
           {| session_connect := Return tt;
              session_disconnect := Return tt;
              work_current_job := Return (Some Sample.truncated_body);
              read_value := read_value Sample.healthy;
              now := 5 |}
           Sample.connected_client Sample.truncated_body);
    [reflexivity | vm_compute; lia | vm_compute; reflexivity].
Defined.

(** X12. When the current job can be read, the probe answers a status
    without error message, whose [is_connected] is the client's own flag
    and which carries the job and the laser parameters: a laser reading
    that fails never turns the status into a failure. *)
Theorem probe_follows_flag_when_job_read (w : world) (self : BystronicClient.t)
    (job : option JobInfo.t) :
  BystronicClient.get_current_job w self = Return job ->
  exists lp,
    BystronicClient.get_laser_parameters w self = Return lp
    /\ BystronicClient.get_machine_status w self
       = Return
           (MachineStatus.mk (BystronicClient.url self)
              (BystronicClient._connected self) job (Some lp) (Some (now w)) None).
Proof.
  intros Hjob. eexists. split; [reflexivity|].
  unfold BystronicClient.get_machine_status. rewrite Hjob. reflexivity.
Qed.

Lemma probe_follows_flag_when_job_read_witness :
  exists lp,
    BystronicClient.get_laser_parameters Sample.power_unreadable
      Sample.connected_client = Return lp
    /\ BystronicClient.get_machine_status Sample.power_unreadable
         Sample.connected_client
       = Return
           (MachineStatus.mk Sample.machine_url true None (Some lp)
              (Some 1700000000) None).
Proof.
  exact (probe_follows_flag_when_job_read Sample.power_unreadable
           Sample.connected_client None eq_refl).
Defined.

(** X13. Each field of the laser parameters comes from its own node: when
    the read of a node returns a value, the field of that node holds this
    value, whatever the other five reads do. *)
Theorem laser_fields_follow_their_nodes (w : world) (self : BystronicClient.t) :
  exists lp,
    BystronicClient.get_laser_parameters w self = Return lp
    /\ (forall v, read_value w "ns=2;s=Laser.CurrentLaserPower" = Return v ->
          LaserParameters.current_laser_power lp = v)
    /\ (forall v, read_value w "ns=2;s=Laser.GasChannel" = Return v ->
          LaserParameters.gas_channel lp = v)
    /\ (forall v, read_value w "ns=2;s=Laser.GasPressure" = Return v ->
          LaserParameters.gas_pressure lp = v)
    /\ (forall v, read_value w "ns=2;s=Laser.LaserPowerDeviation" = Return v ->
          LaserParameters.laser_power_deviation lp = v)
    /\ (forall v, read_value w "ns=2;s=Laser.LaserPowerSetpoint" = Return v ->
          LaserParameters.laser_power_setpoint lp = v)
    /\ (forall v, read_value w "ns=2;s=Laser.ProcessOperationMode" = Return v ->
          LaserParameters.process_operation_mode lp = v).
Proof.
  eexists. split; [reflexivity|].
  unfold BystronicClient.get_laser_parameters, BystronicClient.LASER_NODES.
  cbn [fold_left LaserParameters.current_laser_power LaserParameters.gas_channel
       LaserParameters.gas_pressure LaserParameters.laser_power_deviation
       LaserParameters.laser_power_setpoint
       LaserParameters.process_operation_mode].
  unfold BystronicClient.read_laser_node.
  repeat match goal with
  | |- context [match read_value w ?n with _ => _ end] =>
      destruct (read_value w n)
  end;
  repeat split; intros v H; first [discriminate H | injection H as <-];
    vm_compute; reflexivity.
Qed.

Lemma laser_fields_follow_their_nodes_witness :
  exists lp,
    BystronicClient.get_laser_parameters Sample.power_unreadable
      Sample.connected_client = Return lp
    /\ LaserParameters.gas_channel lp = PyInt 2.
Proof.
  destruct (laser_fields_follow_their_nodes Sample.power_unreadable
              Sample.connected_client) as (lp & Hlp & _ & Hgas & _).
  exists lp. split; [exact Hlp | exact (Hgas (PyInt 2) eq_refl)].
Defined.

(** ** One pass of a monitor task, in full *)

Lemma probe_url (w : world) (c : BystronicClient.t) (s : MachineStatus.t) :
  BystronicClient.get_machine_status w c = Return s ->
  MachineStatus.machine_url s = BystronicClient.url c.
Proof.
  unfold BystronicClient.get_machine_status.
  destruct (BystronicClient.get_current_job w c); cbv [mbind outcome_bind];
    simpl; by intros [= <-].
Qed.

(** The three ways a pass can go, each with the state it leaves. *)
Lemma cycle_cases (w : world) name (client : BystronicClient.t)
    (k : MachineMonitor.task) :
  let m := MachineMonitor.self k in
  let client' := BystronicClient.record_call called_connect client in
  (exists s,
     BystronicClient._connected client = true
     /\ BystronicClient.get_machine_status w client = Return s
     /\ MachineMonitor.cycle w name client k
        = MachineMonitor.mk_task (MachineMonitor.set_status name s m)
            (MachineMonitor.retry_count k)
            (MachineMonitor.events k
               ++ [Published name s; Slept (MachineMonitor.update_interval m)]))
  \/ (exists s,
        BystronicClient._connected client = false
        /\ session_connect w = Return tt
        /\ BystronicClient.get_machine_status w
             (BystronicClient.set_connected true client') = Return s
        /\ MachineMonitor.cycle w name client k
           = MachineMonitor.mk_task
               (MachineMonitor.set_status name s
                  (MachineMonitor.set_client name
                     (BystronicClient.set_connected true client') m))
               0
               (MachineMonitor.events k
                  ++ [Published name s; Slept (MachineMonitor.update_interval m)]))
  \/ (exists e,
        BystronicClient._connected client = false
        /\ session_connect w = Raise e
        /\ MachineMonitor.cycle w name client k
           = if MachineMonitor.retry_count k + 1 <=? MachineMonitor.retry_attempts m
             then
               MachineMonitor.mk_task (MachineMonitor.set_client name client' m)
                 (MachineMonitor.retry_count k + 1)
                 (MachineMonitor.events k
                    ++ [Slept (Z.min ((MachineMonitor.retry_count k + 1) * 10) 60)])
             else
               MachineMonitor.mk_task
                 (MachineMonitor.set_status name (connect_failure_status client w e)
                    (MachineMonitor.set_client name client' m))
                 0
                 (MachineMonitor.events k
                    ++ [Published name (connect_failure_status client w e);
                        Slept (MachineMonitor.update_interval m)])).
Proof.
  intros m client'. destruct k as [m0 rc evs]. simpl in m. subst m.
  destruct (BystronicClient._connected client) eqn:Hc.
  - left. destruct (probe_returns w client) as (s & Hs & _). exists s.
    rewrite (cycle_polling w name client _ s Hc Hs).
    repeat split; try done.
    unfold MachineMonitor.sleep, MachineMonitor.publish, MachineMonitor.emit.
    simpl. by rewrite <- app_assoc.
  - destruct (session_connect w) as [[]|e] eqn:Hw.
    + right; left.
      destruct (probe_returns w (BystronicClient.set_connected true client'))
        as (s & Hs & _).
      exists s. rewrite (cycle_connect_ok w name client _ s Hc Hw Hs).
      repeat split; try done.
      unfold MachineMonitor.sleep, MachineMonitor.publish, MachineMonitor.emit,
        MachineMonitor.set_retry_count, MachineMonitor.with_client.
      simpl. by rewrite <- app_assoc.
    + right; right. exists e.
      rewrite (failing_pass m0 name client w e rc evs Hc Hw). simpl.
      repeat split; try done.
      destruct (rc + 1 <=? MachineMonitor.retry_attempts m0); [done|].
      by rewrite <- app_assoc.
Qed.

(** X14. The generic [except Exception] branch of the monitor loop is
    never taken: the [try] block raises only when the client was
    disconnected and the session refused to connect, and what it raises is
    then the [ConnectionError] of [connect]. Nothing that fails in the
    probe reaches the loop. *)
Theorem try_block_raises_only_connect_failure (w : world) (name : string)
    (client : BystronicClient.t) (k k' : MachineMonitor.task) (e : exn) :
  MachineMonitor.try_block w name client k = (Raise e, k') ->
  BystronicClient._connected client = false
  /\ exists e0,
       session_connect w = Raise e0
       /\ e = ConnectionError
                (Caused ("Failed to connect to " +:+ BystronicClient.url client +:+ ": ")
                   (str e0))
       /\ MachineMonitor.cycle w name client k
          = MachineMonitor.on_connection_error w client name e k'.
Proof.
  intros H. unfold MachineMonitor.cycle. rewrite H.
  unfold MachineMonitor.try_block, BystronicClient.connect in H.
  destruct (BystronicClient._connected client) eqn:Hc; simpl in H.
  - destruct (probe_returns w client) as (s & Hs & _). rewrite Hs in H.
    discriminate H.
  - destruct (session_connect w) as [[]|e0] eqn:Hw; simpl in H.
    + match type of H with context [BystronicClient.get_machine_status w ?c] =>
        destruct (probe_returns w c) as (s & Hs & _); rewrite Hs in H end.
      discriminate H.
    + injection H as <- <-. split; [done|]. exists e0. by repeat split.
Qed.

Lemma try_block_raises_only_connect_failure_witness :
  exists k',
    MachineMonitor.try_block (Sample.unreachable 1) "laser1" Sample.fresh_client
      (MachineMonitor.mk_task Sample.monitor 0 [])
    = (Raise (ConnectionError
                (Caused ("Failed to connect to " +:+ Sample.machine_url +:+ ": ")
                   (str Sample.refused))), k')
    /\ BystronicClient._connected Sample.fresh_client = false.
Proof.
  eexists. split; [vm_compute; reflexivity|].
  refine (proj1 (try_block_raises_only_connect_failure (Sample.unreachable 1)
                   "laser1" Sample.fresh_client
                   (MachineMonitor.mk_task Sample.monitor 0 []) _ _ _)).
  vm_compute. reflexivity.
Defined.

(** What a pass keeps, for a task whose retry count is in its range. *)
Lemma cycle_step (w : world) name (client : BystronicClient.t)
    (k : MachineMonitor.task) :
  let m := MachineMonitor.self k in
  let k' := MachineMonitor.cycle w name client k in
  let m' := MachineMonitor.self k' in
  0 <= MachineMonitor.retry_count k
       <= Z.max 0 (MachineMonitor.retry_attempts m) ->
  (exists new,
     MachineMonitor.events k' = MachineMonitor.events k ++ new
     /\ pass_events name (MachineMonitor.update_interval m) new)
  /\ 0 <= MachineMonitor.retry_count k'
          <= Z.max 0 (MachineMonitor.retry_attempts m)
  /\ MachineMonitor.update_interval m' = MachineMonitor.update_interval m
  /\ MachineMonitor.retry_attempts m' = MachineMonitor.retry_attempts m
  /\ MachineMonitor._monitoring m' = MachineMonitor._monitoring m
  /\ MachineMonitor.machines m' = MachineMonitor.machines m.
Proof.
  intros m k' m' Hrc. subst k' m'.
  destruct (cycle_cases w name client k)
    as [(s & _ & _ & ->)|[(s & _ & _ & _ & ->)|(e & _ & _ & ->)]]; fold m.
  - simpl. repeat split; try lia. eexists. split; [done | constructor].
  - simpl. repeat split; try lia. eexists. split; [done | constructor].
  - destruct (MachineMonitor.retry_count k + 1 <=? MachineMonitor.retry_attempts m)
      eqn:E; simpl; repeat split; try lia.
    + eexists. split; [done|]. constructor. lia.
    + eexists. split; [done | constructor].
Qed.

Lemma loop_inv (ws : list world) name : forall (k : MachineMonitor.task),
  let m := MachineMonitor.self k in
  let k' := MachineMonitor.monitor_loop ws name k in
  0 <= MachineMonitor.retry_count k
       <= Z.max 0 (MachineMonitor.retry_attempts m) ->
  (exists passes,
     MachineMonitor.events k' = MachineMonitor.events k ++ concat passes
     /\ Forall (pass_events name (MachineMonitor.update_interval m)) passes
     /\ (length passes <= length ws)%nat)
  /\ 0 <= MachineMonitor.retry_count k'
          <= Z.max 0 (MachineMonitor.retry_attempts m).
Proof.
  induction ws as [|w ws IH]; intros k m k' Hrc; subst k'.
  - simpl. split; [|done]. exists []. simpl. rewrite app_nil_r.
    split; [done | split; [constructor | lia]].
  - assert (Hidle :
      exists passes : list (list event),
        MachineMonitor.events k = MachineMonitor.events k ++ concat passes
        /\ Forall (pass_events name (MachineMonitor.update_interval m)) passes
        /\ (length passes <= length (w :: ws))%nat).
    { exists []. simpl. rewrite app_nil_r.
      split; [done | split; [constructor | lia]]. }
    cbn [MachineMonitor.monitor_loop]. fold m.
    destruct (MachineMonitor._monitoring m); [|by split].
    destruct (MachineMonitor._clients m !! name) as [client|]; [|by split].
    clear Hidle.
    destruct (cycle_step w name client k Hrc)
      as ((new & Hnew & Hshape) & Hrc' & Hui & Hra & _ & _).
    fold m in Hrc', Hui, Hra, Hshape.
    destruct (IH (MachineMonitor.cycle w name client k)) as ((ps & Hps & Hall & Hn) & Hb).
    { by rewrite Hra. }
    rewrite Hui in Hall. rewrite Hra in Hb. split; [|done].
    exists (new :: ps). rewrite Hps, Hnew. simpl.
    split; [by rewrite <- app_assoc | split; [by constructor | simpl; lia]].
Qed.


Lemma loop_config (ws : list world) name : forall (k : MachineMonitor.task),
  let m := MachineMonitor.self k in
  let m' := MachineMonitor.self (MachineMonitor.monitor_loop ws name k) in
  0 <= MachineMonitor.retry_count k
       <= Z.max 0 (MachineMonitor.retry_attempts m) ->
  MachineMonitor.update_interval m' = MachineMonitor.update_interval m
  /\ MachineMonitor.retry_attempts m' = MachineMonitor.retry_attempts m.
Proof.
  induction ws as [|w ws IH]; intros k m m' Hrc; subst m'; [done|].
  cbn [MachineMonitor.monitor_loop]. fold m.
  destruct (MachineMonitor._monitoring m); [|done].
  destruct (MachineMonitor._clients m !! name) as [client|]; [|done].
  destruct (cycle_step w name client k Hrc) as (_ & Hrc' & Hui & Hra & _ & _).
  fold m in Hrc', Hui, Hra.
  destruct (IH (MachineMonitor.cycle w name client k)) as [Hui' Hra'].
  { by rewrite Hra. }
  split; congruence.
Qed.

(** X16. Between passes the retry count is in its range: each time the
    task is back at the [while] test, after any number of complete passes
    and whatever the sessions answered, the count is at least 0 and at
    most [retry_attempts] (0 when [retry_attempts] is negative). Inside
    the [except ConnectionError] branch it is higher: the branch raises
    the count by one before it tests it, so on a soft failure the status
    is published and the interval slept with the count one above what the
    task entered the pass with, at most [retry_attempts + 1], and only the
    last statement of the branch puts it back at 0. *)
Theorem retry_count_in_range_between_passes (ws : list world) (name : string)
    (m : MachineMonitor.t) :
  let k := MachineMonitor._monitor_machine ws name m in
  0 <= MachineMonitor.retry_count k <= Z.max 0 (MachineMonitor.retry_attempts m)
  /\ forall (w : world) (client : BystronicClient.t) (e : exn),
       let raised :=
         MachineMonitor.set_retry_count (MachineMonitor.retry_count k + 1) k in
       MachineMonitor.retry_attempts m < MachineMonitor.retry_count raised ->
       MachineMonitor.on_connection_error w client name e k
       = MachineMonitor.set_retry_count 0
           (MachineMonitor.sleep (MachineMonitor.update_interval m)
              (MachineMonitor.publish name
                 (MachineStatus.mk (BystronicClient.url client) false None None
                    (Some (now w)) (Some (str e)))
                 raised))
       /\ MachineMonitor.retry_count raised
          = Z.max 0 (MachineMonitor.retry_attempts m) + 1.
Proof.
  intros k.
  destruct (loop_inv ws name (MachineMonitor.mk_task m 0 [])) as (_ & Hrc);
    [simpl; lia|].
  destruct (loop_config ws name (MachineMonitor.mk_task m 0 [])) as [Hui Hra];
    [simpl; lia|].
  simpl in Hrc, Hui, Hra. fold (MachineMonitor._monitor_machine ws name m) in *.
  fold k in Hrc, Hui, Hra.
  split; [exact Hrc|].
  intros w client e raised Hover. subst raised. simpl in Hover. split.
  - unfold MachineMonitor.on_connection_error. simpl. rewrite Hra, Hui.
    by rewrite (proj2 (Z.leb_gt _ _) Hover).
  - simpl. lia.
Qed.

(** ** The tables of the fleet *)

Lemma cycle_other (w : world) name0 (client : BystronicClient.t)
    (k : MachineMonitor.task) (name : string) :
  name0 <> name ->
  let m' := MachineMonitor.self (MachineMonitor.cycle w name0 client k) in
  MachineMonitor._status m' !! name
    = MachineMonitor._status (MachineMonitor.self k) !! name
  /\ MachineMonitor._clients m' !! name
     = MachineMonitor._clients (MachineMonitor.self k) !! name.
Proof.
  intros Hne m'. subst m'.
  destruct (cycle_cases w name0 client k)
    as [(s & _ & _ & ->)|[(s & _ & _ & _ & ->)|(e & _ & _ & ->)]].
  - simpl. by rewrite lookup_insert_ne.
  - simpl. by rewrite !lookup_insert_ne.
  - destruct (_ <=? _); simpl; by rewrite ?lookup_insert_ne.
Qed.

Lemma cycle_own (w : world) name (client : BystronicClient.t)
    (k : MachineMonitor.task) :
  MachineMonitor._clients (MachineMonitor.self k) !! name = Some client ->
  let m' := MachineMonitor.self (MachineMonitor.cycle w name client k) in
  BystronicClient.url <$> MachineMonitor._clients m' !! name
    = Some (BystronicClient.url client)
  /\ (MachineMonitor._status m' !! name
        = MachineMonitor._status (MachineMonitor.self k) !! name
      \/ MachineStatus.machine_url <$> MachineMonitor._status m' !! name
         = Some (BystronicClient.url client)).
Proof.
  intros Hcl m'. subst m'.
  destruct (cycle_cases w name client k)
    as [(s & _ & Hs & ->)|[(s & _ & _ & Hs & ->)|(e & _ & _ & ->)]].
  - simpl. rewrite Hcl, lookup_insert_eq. simpl.
    split; [done | right]. by rewrite (probe_url _ _ _ Hs).
  - simpl. rewrite !lookup_insert_eq. simpl.
    split; [done | right]. by rewrite (probe_url _ _ _ Hs).
  - destruct (_ <=? _); simpl; rewrite !lookup_insert_eq; simpl;
      (split; [done|]); [by left | by right].
Qed.

Lemma fleet_ind (P : MachineMonitor.fleet -> Prop)
    (schedule : list (string * world)) :
  (forall name w fl, (name, w) ∈ schedule -> P fl ->
     P (MachineMonitor.fleet_pass name w fl)) ->
  forall fl, P fl ->
    P (fold_left (fun fl p => MachineMonitor.fleet_pass p.1 p.2 fl) schedule fl).
Proof.
  induction schedule as [|[name w] schedule IH]; intros Hstep fl Hfl; [done|].
  simpl. apply IH.
  - intros n' w' fl' Hin. apply Hstep. by right.
  - apply Hstep; [by left | done].
Qed.

(** X17. A machine's entries belong to its own task: passes of other
    machines, in any number and order and whatever their sessions answer,
    leave its status and its client as they were. *)
Theorem other_passes_leave_machine_alone (schedule : list (string * world))
    (m : MachineMonitor.t) (name : string) :
  (forall p, p ∈ schedule -> p.1 <> name) ->
  let m' := MachineMonitor.monitor (MachineMonitor.run_fleet schedule m) in
  MachineMonitor.get_machine_status m' name
    = MachineMonitor.get_machine_status m name
  /\ get_machine_client m' name = get_machine_client m name.
Proof.
  intros Hother m'. subst m'.
  unfold MachineMonitor.get_machine_status, get_machine_client,
    MachineMonitor.run_fleet.
  apply (fleet_ind
           (fun fl =>
              MachineMonitor._status (MachineMonitor.monitor fl) !! name
                = MachineMonitor._status m !! name
              /\ MachineMonitor._clients (MachineMonitor.monitor fl) !! name
                 = MachineMonitor._clients m !! name)); [|done].
  intros name0 w fl Hin [IH1 IH2]. unfold MachineMonitor.fleet_pass.
  destruct (MachineMonitor._monitoring (MachineMonitor.monitor fl)); [|done].
  destruct (MachineMonitor._clients (MachineMonitor.monitor fl) !! name0)
    as [client|]; [|done].
  cbn [MachineMonitor.monitor].
  destruct (cycle_other w name0 client
              (MachineMonitor.mk_task (MachineMonitor.monitor fl)
                 (default 0 (MachineMonitor.retry_counts fl !! name0))
                 (MachineMonitor.history fl)) name (Hother _ Hin)) as [H1 H2].
  simpl in H1, H2. by rewrite H1, H2.
Qed.

Lemma other_passes_leave_machine_alone_witness :
  MachineMonitor.get_machine_status
    (MachineMonitor.monitor
       (MachineMonitor.run_fleet [("laser2", Example.stuck)]%string Example.fleet))
    "laser1"
  = MachineMonitor.get_machine_status Example.fleet "laser1".
Proof.
  refine (proj1 (other_passes_leave_machine_alone
                   [("laser2", Example.stuck)]%string Example.fleet "laser1" _)).
  intros p Hin. apply list_elem_of_singleton in Hin. subst p. discriminate.
Defined.

(** X18. The two tables follow the configuration for good. After any run
    of the fleet, a name has a client and a status exactly when it is a
    configured machine, and both carry the URL configured for it. *)
Theorem tables_follow_configuration (machines : gmap string string)
    (update_interval retry_attempts : Z) (schedule : list (string * world))
    (name : string) :
  let m :=
    MachineMonitor.monitor
      (MachineMonitor.run_fleet schedule
         (MachineMonitor.start_monitoring
            (MachineMonitor.init machines update_interval retry_attempts))) in
  BystronicClient.url <$> get_machine_client m name = machines !! name
  /\ MachineStatus.machine_url <$> MachineMonitor.get_machine_status m name
     = machines !! name.
Proof.
  intros m. subst m.
  unfold MachineMonitor.get_machine_status, get_machine_client,
    MachineMonitor.run_fleet.
  revert name.
  apply (fleet_ind
           (fun fl => forall name,
              BystronicClient.url
                <$> MachineMonitor._clients (MachineMonitor.monitor fl) !! name
                = machines !! name
              /\ MachineStatus.machine_url
                   <$> MachineMonitor._status (MachineMonitor.monitor fl) !! name
                 = machines !! name)).
  - intros name0 w fl _ IH name. unfold MachineMonitor.fleet_pass.
    destruct (MachineMonitor._monitoring (MachineMonitor.monitor fl)); [|done].
    destruct (MachineMonitor._clients (MachineMonitor.monitor fl) !! name0)
      as [client|] eqn:Hcl; [|done].
    cbn [MachineMonitor.monitor].
    set (k := MachineMonitor.mk_task (MachineMonitor.monitor fl)
                (default 0 (MachineMonitor.retry_counts fl !! name0))
                (MachineMonitor.history fl)).
    destruct (decide (name0 = name)) as [->|Hne].
    + destruct (IH name) as [IH1 IH2]. rewrite Hcl in IH1. simpl in IH1.
      change (Some (BystronicClient.url client) = machines !! name) in IH1.
      destruct (cycle_own w name client k Hcl) as [H1 [H2|H2]];
        rewrite H1, H2; (split; [exact IH1|]); [exact IH2 | exact IH1].
    + destruct (cycle_other w name0 client k name Hne) as [H1 H2].
      rewrite H1, H2. apply IH.
  - intros name. cbn [MachineMonitor.monitor].
    rewrite (start_monitoring_status _).
    assert (MachineMonitor._clients
              (MachineMonitor.start_monitoring
                 (MachineMonitor.init machines update_interval retry_attempts))
            = MachineMonitor._clients
                (MachineMonitor.init machines update_interval retry_attempts)) as ->.
    { unfold MachineMonitor.start_monitoring. by destruct (MachineMonitor._monitoring _). }
    rewrite init_clients, init_status.
    by destruct (machines !! name).
Qed.

(** ** A connected client is never reconnected *)

Lemma polling_loop (ws : list world) name (client : BystronicClient.t) :
  BystronicClient._connected client = true ->
  forall k : MachineMonitor.task,
    MachineMonitor._monitoring (MachineMonitor.self k) = true ->
    MachineMonitor._clients (MachineMonitor.self k) !! name = Some client ->
    let k' := MachineMonitor.monitor_loop ws name k in
    MachineMonitor._clients (MachineMonitor.self k')
      = MachineMonitor._clients (MachineMonitor.self k)
    /\ MachineMonitor.retry_count k' = MachineMonitor.retry_count k
    /\ MachineMonitor.events k'
       = MachineMonitor.events k
           ++ concat
                (polled name client
                   (MachineMonitor.update_interval (MachineMonitor.self k))
                   <$> ws).
Proof.
  intros Hc. induction ws as [|w ws IH]; intros k Hmon Hcl k'; subst k'.
  - simpl. by rewrite app_nil_r.
  - cbn [MachineMonitor.monitor_loop]. rewrite Hmon, Hcl.
    destruct (probe_returns w client) as (s & Hs & _).
    rewrite (cycle_polling w name client k s Hc Hs).
    set (k1 := MachineMonitor.sleep _ _).
    destruct (IH k1) as (H1 & H2 & H3); [done | done |].
    rewrite H1, H2, H3. repeat split.
    cbn [fmap list_fmap concat]. unfold polled at 2. rewrite Hs.
    unfold k1, MachineMonitor.sleep, MachineMonitor.publish, MachineMonitor.emit.
    simpl. by rewrite <- !app_assoc.
Qed.

(** X19. Once the client is connected the loop never calls [connect]
    again, whatever the probes meet: each pass publishes what the probe
    answered and sleeps [update_interval]; the client, with its record of
    session calls, and the retry count stay as they are. A session that
    died without the flag being cleared is polled at the plain interval
    for as long as the task runs. *)
Theorem polling_never_reconnects (ws : list world) (name : string)
    (m : MachineMonitor.t) (client : BystronicClient.t) :
  MachineMonitor._monitoring m = true ->
  get_machine_client m name = Some client ->
  BystronicClient._connected client = true ->
  let k := MachineMonitor._monitor_machine ws name m in
  get_machine_client (MachineMonitor.self k) name = Some client
  /\ MachineMonitor.retry_count k = 0
  /\ MachineMonitor.events k
     = concat (polled name client (MachineMonitor.update_interval m) <$> ws)
  /\ length (MachineMonitor.events k) = (2 * length ws)%nat.
Proof.
  intros Hmon Hcl Hc k. subst k. unfold MachineMonitor._monitor_machine.
  destruct (polling_loop ws name client Hc (MachineMonitor.mk_task m 0 []) Hmon Hcl)
    as (H1 & H2 & H3).
  unfold get_machine_client. rewrite H1, H2, H3. simpl.
  repeat split; [done|].
  clear. induction ws as [|w ws IH]; [done|].
  cbn [fmap list_fmap concat]. rewrite length_app, IH. unfold polled.
  destruct (probe_returns w client) as (s & -> & _). simpl. lia.
Qed.

Lemma polling_never_reconnects_witness :
  MachineMonitor.events
    (MachineMonitor._monitor_machine [Sample.link_lost; Sample.link_lost] "laser1"
       (MachineMonitor.set_client "laser1" Sample.connected_client Sample.monitor))
  = concat (polled "laser1" Sample.connected_client 30
              <$> [Sample.link_lost; Sample.link_lost]).
Proof.
  exact (proj1 (proj2 (proj2
           (polling_never_reconnects [Sample.link_lost; Sample.link_lost] "laser1"
              (MachineMonitor.set_client "laser1" Sample.connected_client
                 Sample.monitor)
              Sample.connected_client eq_refl eq_refl eq_refl)))).
Defined.

(** X20. A task whose first connect succeeds calls the session's connect
    exactly once: the first pass stores the connected client and resets the
    retry count, and no later pass touches it, whatever the sessions answer
    afterwards. *)
Theorem connects_once (w0 : world) (ws : list world) (name : string)
    (m : MachineMonitor.t) (client : BystronicClient.t) :
  MachineMonitor._monitoring m = true ->
  get_machine_client m name = Some client ->
  BystronicClient._connected client = false ->
  session_connect w0 = Return tt ->
  let k := MachineMonitor._monitor_machine (w0 :: ws) name m in
  get_machine_client (MachineMonitor.self k) name
    = Some (BystronicClient.set_connected true
              (BystronicClient.record_call called_connect client))
  /\ MachineMonitor.retry_count k = 0.
Proof.
  intros Hmon Hcl Hc Hw k. subst k. unfold MachineMonitor._monitor_machine.
  unfold get_machine_client in Hcl.
  cbn [MachineMonitor.monitor_loop MachineMonitor.self]. rewrite Hmon, Hcl.
  set (client' := BystronicClient.set_connected true
                    (BystronicClient.record_call called_connect client)).
  destruct (probe_returns w0 client') as (s & Hs & _).
  rewrite (cycle_connect_ok w0 name client _ s Hc Hw Hs). fold client'.
  set (k1 := MachineMonitor.sleep _ _).
  destruct (polling_loop ws name client' eq_refl k1) as (H1 & H2 & _).
  - exact Hmon.
  - unfold k1. simpl. apply lookup_insert_eq.
  - unfold get_machine_client. rewrite H1, H2. split; [|done].
    unfold k1. simpl. apply lookup_insert_eq.
Qed.

Lemma connects_once_witness :
  BystronicClient.session_calls
    <$> get_machine_client
          (MachineMonitor.self
             (MachineMonitor._monitor_machine
                [Sample.healthy; Sample.link_lost; Sample.unreachable 5] "laser1"
                Sample.monitor)) "laser1"
  = Some [called_connect].
Proof.
  rewrite (proj1 (connects_once Sample.healthy
                    [Sample.link_lost; Sample.unreachable 5] "laser1"
                    Sample.monitor Sample.fresh_client eq_refl eq_refl eq_refl
                    eq_refl)).
  reflexivity.
Defined.

(** ** The views on the status table *)

Lemma view_elem (m : MachineMonitor.t) (b : bool) (name : string) :
  name ∈ (filter (fun p => MachineStatus.is_connected p.2 = b)
            (map_to_list (MachineMonitor._status m))).*1
  <-> exists s, MachineMonitor.get_machine_status m name = Some s
                /\ MachineStatus.is_connected s = b.
Proof.
  unfold MachineMonitor.get_machine_status. rewrite list_elem_of_fmap. split.
  - intros ([n s] & -> & Hin). apply list_elem_of_filter in Hin as [Hb Hin].
    apply elem_of_map_to_list in Hin. eauto.
  - intros (s & Hs & Hb). exists (name, s). split; [done|].
    apply list_elem_of_filter. split; [done|]. by apply elem_of_map_to_list.
Qed.

Lemma view_NoDup (m : MachineMonitor.t) (b : bool) :
  NoDup (filter (fun p => MachineStatus.is_connected p.2 = b)
           (map_to_list (MachineMonitor._status m))).*1.
Proof.
  eapply sublist_NoDup;
    [apply (NoDup_fst_map_to_list (MachineMonitor._status m))|].
  apply fmap_sublist, sublist_filter.
Qed.

(** X21. The two views split the status table. A name is listed as
    connected exactly when it has a status whose [is_connected] is true, as
    disconnected exactly when it has one whose [is_connected] is false; so
    a name with a status is in exactly one of the two lists, a name without
    one in neither, and neither list names a machine twice. *)
Theorem views_split_the_table (m : MachineMonitor.t) (name : string) :
  (name ∈ get_connected_machines m
   <-> exists s, MachineMonitor.get_machine_status m name = Some s
                 /\ MachineStatus.is_connected s = true)
  /\ (name ∈ get_disconnected_machines m
      <-> exists s, MachineMonitor.get_machine_status m name = Some s
                    /\ MachineStatus.is_connected s = false)
  /\ (is_Some (MachineMonitor.get_machine_status m name)
      <-> name ∈ get_connected_machines m \/ name ∈ get_disconnected_machines m)
  /\ ~ (name ∈ get_connected_machines m /\ name ∈ get_disconnected_machines m)
  /\ NoDup (get_connected_machines m)
  /\ NoDup (get_disconnected_machines m).
Proof.
  unfold get_connected_machines, get_disconnected_machines.
  rewrite !view_elem.
  split; [done | split; [done | split; [|split]]].
  - split.
    + intros [s Hs]. destruct (MachineStatus.is_connected s) eqn:E; eauto.
    + intros [(s & Hs & _)|(s & Hs & _)]; eauto.
  - intros [(s & Hs & Ht) (s' & Hs' & Hf)]. congruence.
  - split; apply view_NoDup.
Qed.

(** X22. A monitor that was just constructed, started or not, lists no
    machine as connected and lists as disconnected exactly the configured
    machines. *)
Theorem fresh_monitor_views (machines : gmap string string)
    (update_interval retry_attempts : Z) (name : string) :
  let m := MachineMonitor.init machines update_interval retry_attempts in
  get_connected_machines m = []
  /\ get_connected_machines (MachineMonitor.start_monitoring m) = []
  /\ (name ∈ get_disconnected_machines m <-> is_Some (machines !! name))
  /\ (name ∈ get_disconnected_machines (MachineMonitor.start_monitoring m)
      <-> is_Some (machines !! name)).
Proof.
  intros m. subst m.
  unfold get_connected_machines, get_disconnected_machines.
  rewrite !start_monitoring_status.
  assert (Hnone : forall x,
            x ∉ (filter (fun p => MachineStatus.is_connected p.2 = true)
                   (map_to_list
                      (MachineMonitor._status
                         (MachineMonitor.init machines update_interval
                            retry_attempts)))).*1).
  { intros x Hx. apply view_elem in Hx as (s & Hs & Ht).
    unfold MachineMonitor.get_machine_status in Hs. rewrite init_status in Hs.
    destruct (machines !! x); [|discriminate Hs].
    injection Hs as <-. cbv in Ht. discriminate Ht. }
  apply elem_of_nil_inv in Hnone.
  assert (Hdis : name ∈ (filter (fun p => MachineStatus.is_connected p.2 = false)
                           (map_to_list
                              (MachineMonitor._status
                                 (MachineMonitor.init machines update_interval
                                    retry_attempts)))).*1
                 <-> is_Some (machines !! name)).
  { rewrite view_elem. unfold MachineMonitor.get_machine_status.
    rewrite init_status. split.
    - intros (s & Hs & _). by destruct (machines !! name).
    - intros [url Hurl]. rewrite Hurl. eauto. }
  by repeat split; try apply Hdis.
Qed.

(** ** Stopping the monitor *)

Lemma stop_clients (ws : string -> world) (m : MachineMonitor.t) name :
  MachineMonitor._monitoring m = true ->
  get_machine_client (stop_monitoring ws m) name
  = (fun client => (BystronicClient.disconnect (ws name) client).2)
      <$> get_machine_client m name.
Proof.
  intros Hmon. unfold stop_monitoring, get_machine_client. rewrite Hmon. simpl.
  rewrite map_lookup_imap.
  by destruct (MachineMonitor._clients m !! name).
Qed.

(** X23. Stopping a running monitor clears the flag and disconnects every
    client on its own: a client that was not connected is left alone; one
    whose session closes ends up disconnected; one whose session fails to
    close stays marked as connected, and the failure is dropped. What
    happens to one client does not depend on the sessions of the others. *)
Theorem stop_disconnects_each_client (ws : string -> world)
    (m : MachineMonitor.t) (name : string) (client : BystronicClient.t) :
  MachineMonitor._monitoring m = true ->
  get_machine_client m name = Some client ->
  let m' := stop_monitoring ws m in
  MachineMonitor._monitoring m' = false
  /\ get_machine_client m' name
     = Some (BystronicClient.disconnect (ws name) client).2
  /\ (BystronicClient._connected client = false ->
      get_machine_client m' name = Some client)
  /\ (session_disconnect (ws name) = Return tt ->
      BystronicClient._connected <$> get_machine_client m' name = Some false)
  /\ (BystronicClient._connected client = true ->
      forall e, session_disconnect (ws name) = Raise e ->
        BystronicClient._connected <$> get_machine_client m' name = Some true).
Proof.
  intros Hmon Hcl m'. subst m'. rewrite (stop_clients ws m name Hmon), Hcl.
  split; [unfold stop_monitoring; by rewrite Hmon|]. simpl.
  unfold BystronicClient.disconnect.
  destruct (BystronicClient._connected client) eqn:Hc.
  - repeat split; try done.
    + intros ->. reflexivity.
    + intros _ e ->. simpl. exact (f_equal Some Hc).
  - repeat split; try done. intros _. simpl. exact (f_equal Some Hc).
Qed.

Lemma stop_disconnects_each_client_witness :
  BystronicClient._connected
    <$> get_machine_client
          (stop_monitoring Example.sessions
             (MachineMonitor.monitor
                (MachineMonitor.run_fleet Example.both_polled Example.fleet)))
          "laser1"
  = Some false
  /\ BystronicClient._connected
       <$> get_machine_client
             (stop_monitoring Example.sessions
                (MachineMonitor.monitor
                   (MachineMonitor.run_fleet Example.both_polled Example.fleet)))
             "laser2"
     = Some true.
Proof.
  set (m := MachineMonitor.monitor
              (MachineMonitor.run_fleet Example.both_polled Example.fleet)).
  assert (Hmon : MachineMonitor._monitoring m = true) by reflexivity.
  assert (H1 : exists c, get_machine_client m "laser1" = Some c)
    by (eexists; vm_compute; reflexivity).
  assert (H2 : exists c, get_machine_client m "laser2" = Some c
                         /\ BystronicClient._connected c = true)
    by (eexists; split; vm_compute; reflexivity).
  destruct H1 as [c1 H1]. destruct H2 as (c2 & H2 & Hc2).
  split.
  - exact (proj1 (proj2 (proj2 (proj2
             (stop_disconnects_each_client Example.sessions m "laser1" c1 Hmon H1))))
             eq_refl).
  - exact (proj2 (proj2 (proj2 (proj2
             (stop_disconnects_each_client Example.sessions m "laser2" c2 Hmon H2))))
             Hc2 _ eq_refl).
Defined.

(** X24. Stopping does not touch the status table: every machine keeps
    the last status its task published, so a machine listed as connected
    before the stop is still listed as connected after it. A stopped
    monitor stays stopped: stopping it again changes nothing, and a task
    run on it does not make a single pass. *)
Theorem stop_keeps_statuses (ws ws' : string -> world) (m : MachineMonitor.t) :
  let m' := stop_monitoring ws m in
  (forall name,
     MachineMonitor.get_machine_status m' name
     = MachineMonitor.get_machine_status m name)
  /\ get_connected_machines m' = get_connected_machines m
  /\ get_disconnected_machines m' = get_disconnected_machines m
  /\ stop_monitoring ws' m' = m'
  /\ forall worlds name,
       MachineMonitor.events (MachineMonitor._monitor_machine worlds name m') = [].
Proof.
  intros m'. subst m'.
  assert (Hst : MachineMonitor._status (stop_monitoring ws m)
                = MachineMonitor._status m).
  { unfold stop_monitoring. by destruct (MachineMonitor._monitoring m). }
  assert (Hoff : MachineMonitor._monitoring (stop_monitoring ws m) = false).
  { unfold stop_monitoring. by destruct (MachineMonitor._monitoring m) eqn:E. }
  unfold MachineMonitor.get_machine_status, get_connected_machines,
    get_disconnected_machines. rewrite Hst.
  repeat split.
  - unfold stop_monitoring at 1. by rewrite Hoff.
  - intros worlds name. unfold MachineMonitor._monitor_machine.
    destruct worlds; simpl; [done | by rewrite Hoff].
Qed.
